(** * The quote generator of [dom-manipulation/script.js]

    A shallow embedding of the script (the self-contained program that
    starts at the second [STORAGE KEYS] banner of the source file) and the
    properties of its quote store, category index and filter.

    Conventions of the model.
    - A JavaScript string is a [string]; each [ascii] stands for one code
      unit below 256, so the white space that [trim] removes is the set
      9-13, 32 and 160.
    - A JavaScript value is a [value]; the numbers of decoded JSON are
      represented by integers, which stand for the safe integers (the
      script inspects only the truthiness and the identity of a number,
      and turns it into a string when it labels an option).
    - JSON text (a storage item, an imported or exported file) is not kept
      as characters but as what [JSON.parse] makes of it: see [text].
    - The host (answers to [confirm], the draw of [Math.random], the quota
      of [localStorage]) is an explicit argument [host] of every operation.
    - An operation that can throw returns a [completion] with the world
      it leaves.  What the script converts to a string (the holes of the
      quote markup, the value of an option) may have none: a decoded
      object with a [toString] entry of its own makes the conversion throw
      a [TypeError].
    - [sessionStorage] and [quoteDisplay] are taken to be present and to
      accept their writes; [categoryFilter] may be missing, as the script
      itself allows.  The inputs of the add form are modelled apart, with
      the form. *)

From Stdlib Require Import String Ascii List ZArith Bool Arith Lia Permutation.
From Stdlib Require Import DecimalString.
Import ListNotations.
Local Open Scope string_scope.
Local Open Scope list_scope.
Set Warnings "-register-all".

(** ** JavaScript values *)

Inductive value : Type :=
| VUndefined
| VNull
| VBool (b : bool)
| VNum (n : Z)
| VStr (s : string)
| VArr (items : list value)
| VObj (props : list (string * value)).

(** [typeof v] *)
Definition typeof (v : value) : string :=
  match v with
  | VUndefined => "undefined"
  | VNull => "object"
  | VBool _ => "boolean"
  | VNum _ => "number"
  | VStr _ => "string"
  | VArr _ => "object"
  | VObj _ => "object"
  end.

(** ToBoolean: what [if (v)], [!v], [v && ...] and [filter(c => c)] test. *)
Definition truthy (v : value) : bool :=
  match v with
  | VUndefined => false
  | VNull => false
  | VBool b => b
  | VNum n => negb (n =? 0)%Z
  | VStr s => negb (s =? "")
  | VArr _ => true
  | VObj _ => true
  end.

(** The property read [v.k] for a data property [k] ([text], [author],
    [category]).  Primitives and arrays have no such property.  A read from
    [null] or [undefined] throws in JavaScript; every read of the script is
    either guarded by a truthiness test of the receiver or made on an
    element of the collection (an object, see [quotes_are_objects]), so the
    model gives [VUndefined] there. *)
Definition get (v : value) (k : string) : value :=
  match v with
  | VObj props =>
      match find (fun p => fst p =? k) props with
      | Some p => snd p
      | None => VUndefined
      end
  | _ => VUndefined
  end.

(** [Object.hasOwn(q, k)] *)
Definition has_own (q : value) (k : string) : bool :=
  match q with
  | VObj props => existsb (fun p => fst p =? k) props
  | _ => false
  end.

(** [a === b].  Objects and arrays are compared by reference: the two
    operands of every comparison the script makes sit at different places of
    freshly decoded or freshly built data, so two of them are never the same
    reference. *)
Definition strict_equal (a b : value) : bool :=
  match a, b with
  | VUndefined, VUndefined => true
  | VNull, VNull => true
  | VBool x, VBool y => Bool.eqb x y
  | VNum x, VNum y => (x =? y)%Z
  | VStr x, VStr y => (x =? y)
  | _, _ => false
  end.

(** SameValueZero, the equality of [Set] and [Array.prototype.includes];
    it differs from [===] on NaN only, which decoded JSON never holds. *)
Definition SameValueZero (a b : value) : bool := strict_equal a b.

(** ToString, as a template literal and the assignment [option.value = cat]
    apply it; [None] is the [TypeError] of a value that has no string.  An
    object is converted through its [toString] and [valueOf]: a decoded
    object inherits both from [Object.prototype], unless it has a property
    [toString] of its own, which, being data, cannot be called; the
    inherited [valueOf] returns the object itself, so the conversion then
    fails.  An array is converted by [join], which converts its elements. *)
Fixpoint ToString (v : value) : option string :=
  match v with
  | VUndefined => Some "undefined"
  | VNull => Some "null"
  | VBool true => Some "true"
  | VBool false => Some "false"
  | VNum n => Some (NilZero.string_of_int (Z.to_int n))
  | VStr s => Some s
  | VArr items =>
      option_map (String.concat ",")
        (fold_right
           (fun x acc =>
              match match x with
                    | VUndefined | VNull => Some ""
                    | _ => ToString x
                    end, acc with
              | Some s, Some l => Some (s :: l)
              | _, _ => None
              end)
           (Some []) items)
  | VObj _ =>
      if has_own v "toString" then None else Some "[object Object]"
  end.

(** ** Strings: [String.prototype.trim] *)

Definition is_white_space (c : ascii) : bool :=
  let n := nat_of_ascii c in
  (((9 <=? n) && (n <=? 13)) || (n =? 32) || (n =? 160))%nat.

Fixpoint trimStart (s : string) : string :=
  match s with
  | EmptyString => EmptyString
  | String c r => if is_white_space c then trimStart r else s
  end.

Fixpoint trimEnd (s : string) : string :=
  match s with
  | EmptyString => EmptyString
  | String c r =>
      match trimEnd r with
      | EmptyString => if is_white_space c then EmptyString else String c EmptyString
      | r' => String c r'
      end
  end.

Definition trim (s : string) : string := trimEnd (trimStart s).

(** [v.trim()]: a [TypeError] ([None]) unless [v] is a string. *)
Definition method_trim (v : value) : option string :=
  match v with
  | VStr s => Some (trim s)
  | _ => None
  end.

(** ** JSON text *)

(** A piece of text that the script hands to [JSON.parse] or obtains from
    [JSON.stringify]: the empty string, text that is not JSON, or the text
    of a document. *)
Inductive text : Type :=
| Blank
| Garbled
| Document (v : value).

(** [JSON.parse]: [None] is the [SyntaxError]. *)
Definition JSON_parse (t : text) : option value :=
  match t with
  | Document v => Some v
  | _ => None
  end.

(** What [JSON.stringify] writes for a value: a property holding
    [undefined] is left out, [undefined] inside an array becomes [null]. *)
Fixpoint serializable (v : value) : value :=
  match v with
  | VArr items =>
      VArr (map (fun x => match x with
                          | VUndefined => VNull
                          | _ => serializable x
                          end) items)
  | VObj props =>
      VObj (flat_map (fun p => match p with
                               | (k, x) => match x with
                                           | VUndefined => []
                                           | _ => [(k, serializable x)]
                                           end
                               end) props)
  | _ => v
  end.

Definition JSON_stringify (v : value) : text := Document (serializable v).

(** ** The page: the script's state and what it touches *)

(** [localStorage], with the two keys the script uses.  [dq_quotes_v1]
    ([LOCAL_KEY]) holds JSON text, [dq_selectedCategory] a plain string. *)
Record storage : Type := {
  dq_quotes_v1 : option text;
  dq_selectedCategory : option string
}.

(** The [<select id="categoryFilter">] element: the values of its options
    and its [value]. *)
Record select : Type := {
  options : list string;
  selected : string
}.

(** What [quoteDisplay] shows: a text ([textContent = ...]) or the markup
    the script builds from a quote ([innerHTML = `<div>${q.text}</div>...`]),
    kept as the quote it is built from. *)
Inductive display : Type :=
| TextContent (s : string)
| QuoteMarkup (q : value).

(** A hole [${v ? v + sep : ''}] or [${v || ''}] of that markup ([sep] is
    the string of a middle dot between two spaces): a truthy value is
    converted to a string (the concatenation converts an object through
    [valueOf] and [toString], which fails on the same decoded values as
    ToString). *)
Definition hole (v : value) : option string :=
  if truthy v then ToString v else Some "".

(** The markup of a quote,
    [`<div>${q.text}</div>
      <div class="meta">${q.author ? q.author + sep : ''}${q.category || ''}</div>`]:
    [None] is the [TypeError] of a hole that has no string. *)
Definition markup (q : value) : option display :=
  match ToString (get q "text"), hole (get q "author"), hole (get q "category") with
  | Some _, Some _, Some _ => Some (QuoteMarkup q)
  | _, _, _ => None
  end.

Record world : Type := {
  quotes : list value;              (* let quotes *)
  localStorage : storage;
  dq_last_quote : option text;      (* sessionStorage[SESSION_KEY] *)
  categoryFilter : option select;   (* null when the element is missing *)
  quoteDisplay : display;
  alerts : list string;             (* the calls of alert, oldest first *)
  console : list string             (* console.error / console.warn *)
}.

(** [Math.random()]: a number [numer / (numer + below + 1)] of [0, 1). *)
Record fraction : Type := {
  numer : nat;
  below : nat
}.

(** The host for the time of one operation: what the user answers to
    [confirm], what [Math.random] draws, and which contents [localStorage]
    accepts ([setItem] throws [QuotaExceededError] when the contents it
    would produce are not accepted, and then leaves the storage as it is). *)
Record host : Type := {
  confirm : string -> bool;
  Math_random : fraction;
  quota : storage -> bool
}.

Inductive exn : Type :=
| TypeError
| ReferenceError
| SyntaxError
| QuotaExceededError.

Inductive completion : Type :=
| Normal
| Throw (e : exn).

Definition with_quotes (qs : list value) (w : world) : world :=
  {| quotes := qs; localStorage := localStorage w;
     dq_last_quote := dq_last_quote w; categoryFilter := categoryFilter w;
     quoteDisplay := quoteDisplay w; alerts := alerts w; console := console w |}.

Definition with_localStorage (s : storage) (w : world) : world :=
  {| quotes := quotes w; localStorage := s;
     dq_last_quote := dq_last_quote w; categoryFilter := categoryFilter w;
     quoteDisplay := quoteDisplay w; alerts := alerts w; console := console w |}.

Definition with_last_quote (t : option text) (w : world) : world :=
  {| quotes := quotes w; localStorage := localStorage w;
     dq_last_quote := t; categoryFilter := categoryFilter w;
     quoteDisplay := quoteDisplay w; alerts := alerts w; console := console w |}.

Definition with_categoryFilter (c : option select) (w : world) : world :=
  {| quotes := quotes w; localStorage := localStorage w;
     dq_last_quote := dq_last_quote w; categoryFilter := c;
     quoteDisplay := quoteDisplay w; alerts := alerts w; console := console w |}.

Definition with_quoteDisplay (d : display) (w : world) : world :=
  {| quotes := quotes w; localStorage := localStorage w;
     dq_last_quote := dq_last_quote w; categoryFilter := categoryFilter w;
     quoteDisplay := d; alerts := alerts w; console := console w |}.

Definition alert (msg : string) (w : world) : world :=
  {| quotes := quotes w; localStorage := localStorage w;
     dq_last_quote := dq_last_quote w; categoryFilter := categoryFilter w;
     quoteDisplay := quoteDisplay w; alerts := alerts w ++ [msg];
     console := console w |}.

Definition console_error (msg : string) (w : world) : world :=
  {| quotes := quotes w; localStorage := localStorage w;
     dq_last_quote := dq_last_quote w; categoryFilter := categoryFilter w;
     quoteDisplay := quoteDisplay w; alerts := alerts w;
     console := console w ++ [msg] |}.

(** [quotes.push(...items)] *)
Definition push (items : list value) (w : world) : world :=
  with_quotes (quotes w ++ items) w.

(** [localStorage.setItem]: [None] when it throws. *)
Definition setItem (h : host) (s : storage) (w : world) : option world :=
  if quota h s then Some (with_localStorage s w) else None.

Definition put_quotes (t : text) (s : storage) : storage :=
  {| dq_quotes_v1 := Some t; dq_selectedCategory := dq_selectedCategory s |}.

Definition put_selectedCategory (c : string) (s : storage) : storage :=
  {| dq_quotes_v1 := dq_quotes_v1 s; dq_selectedCategory := Some c |}.

(** [Math.floor(Math.random() * n)] *)
Definition random_index (h : host) (n : nat) : nat :=
  (numer (Math_random h) * n) / (numer (Math_random h) + below (Math_random h) + 1).

(** [new Set(l)] keeps the first occurrence of every value, in order. *)
Definition Set_has (s : list value) (x : value) : bool :=
  existsb (SameValueZero x) s.

Definition Set_add (s : list value) (x : value) : list value :=
  if Set_has s x then s else s ++ [x].

Definition new_Set (l : list value) : list value :=
  fold_left Set_add l [].

(** ** The script *)

Definition mkQuote (t a c : string) : value :=
  VObj [("text", VStr t); ("author", VStr a); ("category", VStr c)].

Definition DEFAULT_QUOTES : list value :=
  [ VObj [("text", VStr "The best way to predict the future is to invent it.");
          ("category", VStr "Inspiration"); ("author", VStr "Alan Kay")];
    VObj [("text", VStr "Simplicity is the soul of efficiency.");
          ("category", VStr "Wisdom"); ("author", VStr "Austin Freeman")];
    VObj [("text", VStr "If you want to go fast, go alone. If you want to go far, go together.");
          ("category", VStr "Teamwork"); ("author", VStr "African Proverb")] ].

(** [q => q && typeof q.text === 'string'] *)
Definition has_string_text (q : value) : bool :=
  truthy q && (typeof (get q "text") =? "string").

(** [loadQuotes()]: the array it returns, and the world with what it
    logged. *)
Definition loadQuotes (w : world) : list value * world :=
  match dq_quotes_v1 (localStorage w) with
  | None | Some Blank => (DEFAULT_QUOTES, w)
  | Some raw =>
      match JSON_parse raw with
      | Some (VArr parsed) => (filter has_string_text parsed, w)
      | _ =>
          (DEFAULT_QUOTES,
           console_error "Error loading quotes from localStorage:" w)
      end
  end.

(** [saveQuotes(quotes)]: the [QuotaExceededError] of [setItem] is caught
    and logged. *)
Definition saveQuotes (h : host) (w : world) : world :=
  match setItem h (put_quotes (JSON_stringify (VArr (quotes w))) (localStorage w)) w with
  | Some w' => w'
  | None => console_error "Error saving quotes to localStorage:" w
  end.

(** [showRandomQuote()].  The markup is built before anything is written:
    when it fails, the display and the session are as they were. *)
Definition showRandomQuote (h : host) (w : world) : completion * world :=
  match quotes w with
  | [] => (Normal, with_quoteDisplay (TextContent "No quotes available. Add some!") w)
  | _ =>
      let idx := random_index h (length (quotes w)) in
      let quote := nth idx (quotes w) VUndefined in
      match markup quote with
      | None => (Throw TypeError, w)
      | Some shown =>
          (Normal,
           with_last_quote (Some (JSON_stringify quote)) (with_quoteDisplay shown w))
      end
  end.

Definition double_quote : string := String (ascii_of_nat 34) EmptyString.

(** [`No quotes found for "${selectedCategory}".`] *)
Definition not_found_message (selectedCategory : string) : string :=
  "No quotes found for " ++ double_quote ++ selectedCategory ++ double_quote ++ ".".

(** The candidates of [filterQuotes]:
    [selectedCategory === 'all' ? quotes
       : quotes.filter(q => q.category === selectedCategory)] *)
Definition filtered (selectedCategory : string) (qs : list value) : list value :=
  if selectedCategory =? "all" then qs
  else filter (fun q => strict_equal (get q "category") (VStr selectedCategory)) qs.

(** [filterQuotes()].  Reading [categoryFilter.value] of a missing element
    is a [TypeError]; the write of the selected category is not guarded;
    the markup of the drawn quote may fail, after that write. *)
Definition filterQuotes (h : host) (w : world) : completion * world :=
  match categoryFilter w with
  | None => (Throw TypeError, w)
  | Some sel =>
      let selectedCategory := selected sel in
      match setItem h (put_selectedCategory selectedCategory (localStorage w)) w with
      | None => (Throw QuotaExceededError, w)
      | Some w1 =>
          match filtered selectedCategory (quotes w1) with
          | [] =>
              (Normal,
               with_quoteDisplay (TextContent (not_found_message selectedCategory)) w1)
          | pool =>
              let random := nth (random_index h (length pool)) pool VUndefined in
              match markup random with
              | None => (Throw TypeError, w1)
              | Some shown =>
                  (Normal,
                   with_last_quote (Some (JSON_stringify random))
                     (with_quoteDisplay shown w1))
              end
          end
      end
  end.

(** [[...new Set(quotes.map(q => q.category).filter(c => c))]] *)
Definition categories_of (qs : list value) : list value :=
  new_Set (filter truthy (map (fun q => get q "category") qs)).

(** [categoryFilter.value = v]: the first option holding [v] is selected;
    without one, the element has no selection and its value reads as the
    empty string. *)
Definition set_value (v : string) (sel : select) : select :=
  {| options := options sel;
     selected := if existsb (String.eqb v) (options sel) then v else "" |}.

(** The [forEach] of [populateCategories]:
    [option.value = cat; option.textContent = cat; categoryFilter.appendChild(option)].
    The assignment converts the category to a string; when that fails the
    loop is left with the options appended so far. *)
Fixpoint append_options (categories : list value) (sel : select) : completion * select :=
  match categories with
  | [] => (Normal, sel)
  | cat :: rest =>
      match ToString cat with
      | None => (Throw TypeError, sel)
      | Some s =>
          append_options rest {| options := options sel ++ [s]; selected := selected sel |}
      end
  end.

(** [populateCategories()].  After [innerHTML = '<option value="all">...']
    the element stands on ["all"], and stays there when the loop fails. *)
Definition populateCategories (h : host) (w : world) : completion * world :=
  match categoryFilter w with
  | None => (Normal, w)
  | Some _ =>
      let categories := categories_of (quotes w) in
      match append_options categories {| options := ["all"]; selected := "all" |} with
      | (Throw e, sel) => (Throw e, with_categoryFilter (Some sel) w)
      | (Normal, sel) =>
          let w1 := with_categoryFilter (Some sel) w in
          match dq_selectedCategory (localStorage w1) with
          | Some savedCategory =>
              if truthy (VStr savedCategory) &&
                 existsb (SameValueZero (VStr savedCategory)) categories
              then filterQuotes h (with_categoryFilter (Some (set_value savedCategory sel)) w1)
              else (Normal, w1)
          | None => (Normal, w1)
          end
      end
  end.

(** [v ? v.trim() : ''] *)
Definition trim_or_empty (v : value) : option string :=
  if truthy v then method_trim v else Some "".

(** The default [= ''] of a destructured parameter. *)
Definition default_empty (v : value) : value :=
  match v with
  | VUndefined => VStr ""
  | _ => v
  end.

(** [addQuote({ text, author = '', category = '' } = {})].  Destructuring
    [null] is a [TypeError], and so is [.trim()] on a truthy author or
    category that is not a string.  The three attributes of [newQuote] are
    strings, so its markup is built (see [markup_mkQuote]). *)
Definition addQuote (h : host) (arg : value) (w : world) : completion * world :=
  match arg with
  | VNull => (Throw TypeError, w)
  | _ =>
      let text := get arg "text" in
      let author := default_empty (get arg "author") in
      let category := default_empty (get arg "category") in
      if negb (truthy text) || negb (typeof text =? "string")
         || match method_trim text with Some t => t =? "" | None => false end
      then (Normal, alert "Please provide quote text." w)
      else
        match method_trim text, trim_or_empty author, trim_or_empty category with
        | Some t, Some a, Some c =>
            let newQuote := mkQuote t a c in
            let duplicate :=
              existsb (fun q => strict_equal (get q "text") (get newQuote "text"))
                      (quotes w) in
            if duplicate &&
               negb (confirm h "A quote with the same text already exists. Add anyway?")
            then (Normal, w)
            else
              let w1 := saveQuotes h (push [newQuote] w) in
              let w2 := with_quoteDisplay (QuoteMarkup newQuote) w1 in
              let w3 := with_last_quote (Some (JSON_stringify newQuote)) w2 in
              let w4 := alert "Quote added and saved to localStorage!" w3 in
              populateCategories h w4
        | _, _, _ => (Throw TypeError, w)
        end
  end.

(** [exportToJson()]: the name and the content of the file it offers. *)
Definition exportToJson (w : world) : string * text :=
  ("quotes.json", JSON_stringify (VArr (quotes w))).

(** The test of the import's [reduce]:
    [item && typeof item.text === 'string' && item.text.trim() !== ''] *)
Definition usable (item : value) : bool :=
  truthy item && (typeof (get item "text") =? "string")
  && match method_trim (get item "text") with
     | Some t => negb (t =? "")
     | None => false
     end.

(** [(v && typeof v === 'string') ? v.trim() : ''] *)
Definition trimmed_string (v : value) : string :=
  if truthy v && (typeof v =? "string")
  then match method_trim v with Some s => s | None => "" end
  else "".

(** The object the [reduce] pushes for a usable item. *)
Definition normalized (item : value) : value :=
  mkQuote (match method_trim (get item "text") with Some t => t | None => "" end)
          (trimmed_string (get item "author"))
          (trimmed_string (get item "category")).

(** [imported.reduce((acc, item) => { if (...) acc.push({...}); return acc; }, [])] *)
Definition valid_of (imported : list value) : list value :=
  fold_left (fun acc item => if usable item then acc ++ [normalized item] else acc)
            imported [].

(** [valid.filter(q => !existingTexts.has(q.text))] with
    [existingTexts = new Set(quotes.map(q => q.text))] *)
Definition toAdd_of (qs valid : list value) : list value :=
  let existingTexts := new_Set (map (fun q => get q "text") qs) in
  filter (fun q => negb (Set_has existingTexts (get q "text"))) valid.

(** [`Imported ${n} new quotes.`] *)
Definition imported_message (n : nat) : string :=
  "Imported " ++ NilZero.string_of_uint (Nat.to_uint n) ++ " new quotes.".

(** The tail of a successful import: [saveQuotes], the report, and the call
    of [populateCategoryFilter], a name this script does not define: the
    [ReferenceError] is caught by the handler's own [catch]. *)
Definition import_finish (h : host) (n : nat) (w : world) : world :=
  let w1 := saveQuotes h w in
  let w2 := alert (imported_message n) w1 in
  alert "Error parsing JSON file." (console_error "Import error:" w2).

(** [importFromJsonFile(event)] together with the [onload] handler of its
    reader; [file] is the content of [event.target.files[0]], if any.  The
    handler's [try]/[catch] lets nothing escape. *)
Definition importFromJsonFile (h : host) (file : option text) (w : world) : world :=
  match file with
  | None => w
  | Some result =>
      match JSON_parse result with
      | None => alert "Error parsing JSON file." (console_error "Import error:" w)
      | Some (VArr imported) =>
          let valid := valid_of imported in
          match valid with
          | [] => alert "No valid quotes found in imported file." w
          | _ =>
              let toAdd := toAdd_of (quotes w) valid in
              match toAdd with
              | [] =>
                  if negb (confirm h "All imported quotes already exist. Append duplicates?")
                  then w
                  else import_finish h (length toAdd) (push valid w)
              | _ => import_finish h (length toAdd) (push toAdd w)
              end
          end
      | Some _ =>
          alert "Invalid file format: root element must be an array of quotes." w
      end
  end.

(** [clearAllQuotes()] *)
Definition clearAllQuotes (h : host) (w : world) : completion * world :=
  if negb (confirm h "This will DELETE ALL quotes. Proceed?") then (Normal, w)
  else
    let w1 := saveQuotes h (with_quotes [] w) in
    populateCategories h (with_quoteDisplay (TextContent "All quotes deleted.") w1).

(** The top level of the script up to [init()]: [let quotes = loadQuotes()]. *)
Definition start (w : world) : world :=
  let (qs, w') := loadQuotes w in with_quotes qs w'.

(** The [try] block of [init] on the parsed last quote: reading
    [last.text] of a stored [null] is a [TypeError], and so is a hole of
    the markup that has no string. *)
Definition last_markup (last : value) : option display :=
  match last with
  | VNull | VUndefined => None
  | _ => markup last
  end.

(** [init()]: the categories, then the last quote of the session or a
    random one.  What the [try] block throws (the [SyntaxError] of
    [JSON.parse], a [TypeError]) is caught and logged, and a random quote
    is shown instead. *)
Definition init (h : host) (w : world) : completion * world :=
  match populateCategories h w with
  | (Throw e, w1) => (Throw e, w1)
  | (Normal, w1) =>
      match dq_last_quote w1 with
      | None | Some Blank => showRandomQuote h w1
      | Some lastRaw =>
          match match JSON_parse lastRaw with
                | Some last => last_markup last
                | None => None
                end with
          | Some shown => (Normal, with_quoteDisplay shown w1)
          | None =>
              showRandomQuote h
                (console_error "Could not read sessionStorage last quote:" w1)
          end
      end
  end.

(** ** Runs of the page *)

(** What can happen after the script is loaded: the user's events. *)
Inductive event : Type :=
| AddQuote (arg : value)
| ImportFile (file : option text)
| ClearAll
| ChangeFilter (v : string)
| NewQuote
| Export.

Definition perform (h : host) (e : event) (w : world) : completion * world :=
  match e with
  | AddQuote arg => addQuote h arg w
  | ImportFile file => (Normal, importFromJsonFile h file w)
  | ClearAll => clearAllQuotes h w
  | ChangeFilter v =>
      (* the user picks one of the options; the listener is filterQuotes *)
      match categoryFilter w with
      | Some sel =>
          if existsb (String.eqb v) (options sel)
          then filterQuotes h (with_categoryFilter (Some (set_value v sel)) w)
          else (Normal, w)
      | None => (Normal, w)
      end
  | NewQuote => showRandomQuote h w
  | Export => (Normal, w)
  end.

(** The world an event leaves behind, whether its handler returned or
    threw. *)
Definition handle (h : host) (e : event) (w : world) : world :=
  snd (perform h e w).

(** The worlds the page can be in when it was loaded as [w0] (whatever its
    storage held): the script has run, then events were handled, each under
    the host of its time. *)
Inductive run (w0 : world) : world -> Prop :=
| run_init (h : host) :
    run w0 (snd (init h (start w0)))
| run_event (h : host) (e : event) (w : world) :
    run w0 w -> run w0 (handle h e w).

Definition reachable (w : world) : Prop := exists w0, run w0 w.

(** ** The words of the specification *)

(** An element "has a string [text]". *)
Definition text_is_string (q : value) : Prop :=
  exists t, get q "text" = VStr t.

(** An element "has non-empty trimmed [text]". *)
Definition has_clean_text (q : value) : Prop :=
  exists t, get q "text" = VStr t /\ t <> "" /\ trim t = t.

(** An optional attribute: left out, or a trimmed string. *)
Definition trimmed_field (q : value) (k : string) : Prop :=
  has_own q k = false \/ exists s, get q k = VStr s /\ trim s = s.

(** A Quote of the data model: non-empty trimmed [text]; [author] and
    [category] optional, trimmed strings when present. *)
Definition well_formed (q : value) : Prop :=
  has_clean_text q /\ trimmed_field q "author" /\ trimmed_field q "category".

(** The [{text, author, category}] record of an element, an attribute
    that is left out read as the empty string (its default). *)
Definition record_of (q : value) : value * value * value :=
  (get q "text", default_empty (get q "author"), default_empty (get q "category")).

(** The stored collection, when there is one, holds no element with a
    string [text] that is empty or untrimmed. *)
Definition stored_clean (w : world) : Prop :=
  forall items,
    dq_quotes_v1 (localStorage w) = Some (Document (VArr items)) ->
    Forall (fun q => has_string_text q = true -> has_clean_text q) items.

(** A candidate of [add] whose text is "absent, empty, or whitespace-only
    after trimming". *)
Definition blank_text (v : value) : Prop :=
  v = VUndefined \/ exists s, v = VStr s /\ trim s = "".

(** An item is "new" for a collection when no element has its text. *)
Definition is_new (qs : list value) (q : value) : Prop :=
  forall e, In e qs -> get e "text" <> get q "text".

(** The test of being new: no element of the collection has the text of
    the item. *)
Definition unseen (qs : list value) (q : value) : bool :=
  negb (existsb (fun e => strict_equal (get e "text") (get q "text")) qs).

(** Between [w] and [w'] the import told the user that [n] quotes were
    imported. *)
Definition reports (w w' : world) (n : nat) : Prop :=
  exists rest, alerts w' = alerts w ++ imported_message n :: rest.


(** [listCategories] in the words of the specification: the category at
    position [i] is listed when it is non-empty and occurs at no earlier
    position of the collection. *)
Definition listCategories_spec (qs : list value) : list value :=
  let cats := map (fun q => get q "category") qs in
  flat_map
    (fun i =>
       let c := nth i cats VUndefined in
       if truthy c && negb (existsb (SameValueZero c) (firstn i cats))
       then [c] else [])
    (seq 0 (length cats)).

(** A value that has a string: ToString does not fail on it. *)
Definition convertible (v : value) : Prop := ToString v <> None.

(** A quote that the page can show: the markup is built from it. *)
Definition printable (q : value) : Prop := markup q = Some (QuoteMarkup q).

(** A candidate of [add]: an object [{text, author?, category?}] whose
    author and category, when given, are strings. *)
Definition optional_string (v : value) : Prop :=
  v = VUndefined \/ exists s, v = VStr s.

Definition candidate (arg : value) : Prop :=
  (exists props, arg = VObj props) /\
  optional_string (get arg "author") /\ optional_string (get arg "category").







(** ** Pages and hosts used as instances *)

Definition empty_storage : storage :=
  {| dq_quotes_v1 := None; dq_selectedCategory := None |}.

Definition page (qs : list value) (s : storage) : world :=
  {| quotes := qs; localStorage := s; dq_last_quote := None;
     categoryFilter := Some {| options := ["all"]; selected := "all" |};
     quoteDisplay := TextContent ""; alerts := []; console := [] |}.

Definition user (answer : bool) : host :=
  {| confirm := fun _ => answer;
     Math_random := {| numer := 0; below := 0 |};
     quota := fun _ => true |}.

(** A host whose storage has no room for a collection. *)
Definition full (answer : bool) : host :=
  {| confirm := fun _ => answer;
     Math_random := {| numer := 0; below := 0 |};
     quota := fun s => match dq_quotes_v1 s with None => true | Some _ => false end |}.


(** A page whose storage holds one element with a blank text. *)
Definition blank_stored : world :=
  page [] {| dq_quotes_v1 := Some (Document (VArr [VObj [("text", VStr " ")]]));
             dq_selectedCategory := None |}.

(** A page whose storage holds two quotes, the second with a category that
    is an object holding a [toString] entry, and remembers the category of
    the first. *)
Definition unlabelled : world :=
  page [] {| dq_quotes_v1 :=
               Some (Document (VArr
                 [ VObj [("text", VStr "a"); ("category", VStr "A")];
                   VObj [("text", VStr "b");
                         ("category", VObj [("toString", VNum 1)])] ]));
             dq_selectedCategory := Some "A" |}.


(** A page without stored quotes. *)
Definition fresh : world := page [] empty_storage.

(** A page that holds one quote, and a file that holds the same text. *)
Definition one_quote : world := page [mkQuote "a" "" ""] empty_storage.

Definition same_text_file : option text :=
  Some (Document (VArr [VObj [("text", VStr "a")]])).

(** A file in which one text occurs twice, and another once. *)
Definition twice_file : list value :=
  [ VObj [("text", VStr " x"); ("author", VStr "A")];
    VObj [("text", VStr "x "); ("author", VStr "B")];
    VObj [("text", VStr "a")] ].

(** A page whose filter shows the category [c]. *)
Definition filtering (c : string) (qs : list value) : world :=
  with_categoryFilter (Some {| options := ["all"; c]; selected := c |})
    (page qs empty_storage).

(** A page with the default quotes whose storage holds no collection and
    remembers the category [c]. *)
Definition remembering (c : string) : world :=
  page DEFAULT_QUOTES {| dq_quotes_v1 := None; dq_selectedCategory := Some c |}.


(** ** The add form *)

(** The three inputs that [createAddQuoteForm] injects, by their values. *)
Record form : Type := {
  newQuoteText : string;
  newQuoteAuthor : string;
  newQuoteCategory : string
}.

(** The page with [addFormContainer]: [None] until the form is injected. *)
Definition form_page : Type := (world * option form)%type.

(** [createAddQuoteForm()]: the container is emptied and gets a form with
    three fresh inputs. *)
Definition createAddQuoteForm (p : form_page) : form_page :=
  (fst p,
   Some {| newQuoteText := ""; newQuoteAuthor := ""; newQuoteCategory := "" |}).

(** [clearBtn.onclick] *)
Definition click_clear (p : form_page) : form_page :=
  match snd p with
  | Some _ =>
      (fst p,
       Some {| newQuoteText := ""; newQuoteAuthor := ""; newQuoteCategory := "" |})
  | None => p
  end.

(** The [forEach] of [addQuote] over the three ids:
    [const el = document.getElementById(id); if (el) el.value = '';] *)
Definition clear_fields (f : option form) : option form :=
  match f with
  | Some _ => Some {| newQuoteText := ""; newQuoteAuthor := ""; newQuoteCategory := "" |}
  | None => None
  end.

(** [addQuote] as a whole, with the fields it clears once the quote is
    pushed. *)
Definition addQuote_on_page (h : host) (arg : value) (p : form_page)
  : completion * form_page :=
  let w := fst p in
  match arg with
  | VNull => (Throw TypeError, p)
  | _ =>
      let text := get arg "text" in
      let author := default_empty (get arg "author") in
      let category := default_empty (get arg "category") in
      if negb (truthy text) || negb (typeof text =? "string")
         || match method_trim text with Some t => t =? "" | None => false end
      then (Normal, (alert "Please provide quote text." w, snd p))
      else
        match method_trim text, trim_or_empty author, trim_or_empty category with
        | Some t, Some a, Some c =>
            let newQuote := mkQuote t a c in
            let duplicate :=
              existsb (fun q => strict_equal (get q "text") (get newQuote "text"))
                      (quotes w) in
            if duplicate &&
               negb (confirm h "A quote with the same text already exists. Add anyway?")
            then (Normal, p)
            else
              let w1 := saveQuotes h (push [newQuote] w) in
              let w2 := with_quoteDisplay (QuoteMarkup newQuote) w1 in
              let w3 := with_last_quote (Some (JSON_stringify newQuote)) w2 in
              let f := clear_fields (snd p) in
              let w4 := alert "Quote added and saved to localStorage!" w3 in
              (fst (populateCategories h w4), (snd (populateCategories h w4), f))
        | _, _, _ => (Throw TypeError, p)
        end
  end.

(** [addBtn.onclick]: [addQuote] on the values of the three inputs. *)
Definition click_add (h : host) (p : form_page) : completion * form_page :=
  match snd p with
  | Some f =>
      addQuote_on_page h
        (VObj [("text", VStr (newQuoteText f)); ("author", VStr (newQuoteAuthor f));
               ("category", VStr (newQuoteCategory f))])
        p
  | None => (Normal, p)
  end.

(** ** More words for the properties of the store *)

(** A value as JSON has it: no [undefined] anywhere. *)
Fixpoint is_json (v : value) : bool :=
  match v with
  | VUndefined => false
  | VArr items => forallb is_json items
  | VObj props => forallb (fun p => is_json (snd p)) props
  | _ => true
  end.

(** [w'] is a page loaded on what [w] left in the two storages (its
    elements are those of the document, whatever they are). *)
Definition loaded_after (w w' : world) : Prop :=
  localStorage w' = localStorage w /\ dq_last_quote w' = dq_last_quote w.

(** The events that only look at the collection. *)
Definition viewing (e : event) : Prop :=
  match e with
  | ChangeFilter _ | NewQuote | Export => True
  | _ => False
  end.

(** ** The first script of the file *)

(** The source file holds an earlier script before the one modelled
    above, with the same [loadQuotes], [saveQuotes], [showRandomQuote] and
    [exportToJson].  Its other functions know no category filter. *)
Module Earlier.

(** [addQuote], which ends with its alert. *)
Definition addQuote (h : host) (arg : value) (w : world) : completion * world :=
  match arg with
  | VNull => (Throw TypeError, w)
  | _ =>
      let text := get arg "text" in
      let author := default_empty (get arg "author") in
      let category := default_empty (get arg "category") in
      if negb (truthy text) || negb (typeof text =? "string")
         || match method_trim text with Some t => t =? "" | None => false end
      then (Normal, alert "Please provide quote text." w)
      else
        match method_trim text, trim_or_empty author, trim_or_empty category with
        | Some t, Some a, Some c =>
            let newQuote := mkQuote t a c in
            let duplicate :=
              existsb (fun q => strict_equal (get q "text") (get newQuote "text"))
                      (quotes w) in
            if duplicate &&
               negb (confirm h "A quote with the same text already exists. Add anyway?")
            then (Normal, w)
            else
              let w1 := saveQuotes h (push [newQuote] w) in
              let w2 := with_quoteDisplay (QuoteMarkup newQuote) w1 in
              let w3 := with_last_quote (Some (JSON_stringify newQuote)) w2 in
              (Normal, alert "Quote added and saved to localStorage!" w3)
        | _, _, _ => (Throw TypeError, w)
        end
  end.

(** [`Imported ${n} new quotes (ignored duplicates).`] *)
Definition imported_message (n : nat) : string :=
  "Imported " ++ NilZero.string_of_uint (Nat.to_uint n)
  ++ " new quotes (ignored duplicates).".

Definition import_finish (h : host) (n : nat) (w : world) : world :=
  alert (imported_message n) (saveQuotes h w).

(** [importFromJsonFile] with its [onload] handler. *)
Definition importFromJsonFile (h : host) (file : option text) (w : world) : world :=
  match file with
  | None => w
  | Some result =>
      match JSON_parse result with
      | None =>
          alert "Error parsing JSON file. Make sure it is valid JSON."
            (console_error "Import error:" w)
      | Some (VArr imported) =>
          let valid := valid_of imported in
          match valid with
          | [] => alert "No valid quotes found in imported file." w
          | _ =>
              let toAdd := toAdd_of (quotes w) valid in
              match toAdd with
              | [] =>
                  if negb (confirm h
                    "All imported quotes already exist. Do you want to append duplicates anyway?")
                  then w
                  else import_finish h (length toAdd) (push valid w)
              | _ => import_finish h (length toAdd) (push toAdd w)
              end
          end
      | Some _ =>
          alert "Invalid file format: root element must be an array of quotes." w
      end
  end.

(** [clearAllQuotes] *)
Definition clearAllQuotes (h : host) (w : world) : world :=
  if negb (confirm h
    "This will DELETE ALL quotes from localStorage. This action cannot be undone. Proceed?")
  then w
  else with_quoteDisplay (TextContent "All quotes deleted.")
         (saveQuotes h (with_quotes [] w)).

(** The world an event leaves behind; the filter has no listener. *)
Definition handle (h : host) (e : event) (w : world) : world :=
  match e with
  | AddQuote arg => snd (addQuote h arg w)
  | ImportFile file => importFromJsonFile h file w
  | ClearAll => clearAllQuotes h w
  | ChangeFilter _ => w
  | NewQuote => snd (showRandomQuote h w)
  | Export => w
  end.

End Earlier.

(** The user answers the prompts of the two scripts alike. *)
Definition same_answers (h : host) : Prop :=
  confirm h "All imported quotes already exist. Do you want to append duplicates anyway?"
  = confirm h "All imported quotes already exist. Append duplicates?" /\
  confirm h
    "This will DELETE ALL quotes from localStorage. This action cannot be undone. Proceed?"
  = confirm h "This will DELETE ALL quotes. Proceed?".

(** ** Proof steps *)

(** A field that [filterQuotes] does not write is the same in each of its
    outcomes. *)
Ltac by_cases_of_filterQuotes w :=
  unfold filterQuotes, setItem;
  destruct (categoryFilter w) as [?sel|] eqn:?E; [|first [reflexivity|assumption]];
  match goal with
  | |- context [quota ?h ?s] => destruct (quota h s); [|first [reflexivity|assumption]]
  end;
  cbn [quotes localStorage with_localStorage];
  match goal with
  | |- context [filtered ?c ?qs] => destruct (filtered c qs)
  end;
  try match goal with
      | |- context [markup ?q] => destruct (markup q)
      end;
  first [reflexivity|assumption].

(** [populateCategories] rebuilds the options and, when a stored category
    is restored, runs [filterQuotes]: [through] is the fact about the
    latter that carries the property over. *)
Ltac by_cases_of_populateCategories w through :=
  unfold populateCategories;
  destruct (categoryFilter w) as [?sel|]; [|reflexivity];
  destruct (append_options _ _) as [[|?e] ?sel]; [|reflexivity];
  cbn [localStorage with_categoryFilter];
  destruct (dq_selectedCategory (localStorage w)) as [?saved|]; [|reflexivity];
  match goal with
  | |- context [if ?b then _ else _] => destruct b; [|reflexivity]
  end;
  now rewrite through.

(** ** Strings *)

Lemma trimStart_head (s : string) :
  trimStart s = "" \/
  exists c r, trimStart s = String c r /\ is_white_space c = false.
Proof.
  induction s as [|c r IH]; simpl.
  - now left.
  - destruct (is_white_space c) eqn:E.
    + exact IH.
    + right. now exists c, r.
Qed.

Lemma trimStart_fixed (c : ascii) (r : string) :
  is_white_space c = false -> trimStart (String c r) = String c r.
Proof. intros E. simpl. now rewrite E. Qed.

Lemma trimEnd_head (c : ascii) (r : string) :
  is_white_space c = false -> exists r', trimEnd (String c r) = String c r'.
Proof.
  intros E. simpl. destruct (trimEnd r).
  - rewrite E. now exists "".
  - eexists. reflexivity.
Qed.

Lemma trimEnd_idempotent (s : string) : trimEnd (trimEnd s) = trimEnd s.
Proof.
  induction s as [|c r IH]; simpl; [reflexivity|].
  destruct (trimEnd r) as [|c' r'] eqn:E.
  - destruct (is_white_space c) eqn:W; simpl; [reflexivity|].
    now rewrite W.
  - simpl in IH |- *.
    destruct (trimEnd r'); rewrite IH; reflexivity.
Qed.

Lemma trim_idempotent (s : string) : trim (trim s) = trim s.
Proof.
  unfold trim.
  destruct (trimStart_head s) as [E | (c & r & E & W)]; rewrite E.
  - reflexivity.
  - destruct (trimEnd_head c r W) as [r' E'].
    rewrite E', (trimStart_fixed c r' W), <- E'.
    apply trimEnd_idempotent.
Qed.

(** ** Values, sets *)

Lemma strict_equal_eq (a b : value) : strict_equal a b = true -> a = b.
Proof.
  destruct a, b; simpl; try discriminate; try reflexivity; intros H.
  - f_equal. now apply Bool.eqb_prop.
  - f_equal. now apply Z.eqb_eq.
  - f_equal. now apply String.eqb_eq.
Qed.

Lemma strict_equal_sym (a b : value) : strict_equal a b = strict_equal b a.
Proof.
  destruct a, b; simpl; try reflexivity.
  - now destruct b, b0.
  - apply Z.eqb_sym.
  - apply String.eqb_sym.
Qed.

Lemma strict_equal_str (v : value) (s : string) :
  strict_equal v (VStr s) = true <-> v = VStr s.
Proof.
  split.
  - apply strict_equal_eq.
  - intros ->. simpl. apply String.eqb_refl.
Qed.

Lemma strict_equal_truthy (a b : value) :
  strict_equal a b = true -> truthy a = truthy b.
Proof. intros H. now rewrite (strict_equal_eq _ _ H). Qed.

Lemma Set_has_app (s t : list value) (x : value) :
  Set_has (s ++ t) x = Set_has s x || Set_has t x.
Proof. apply existsb_app. Qed.

Lemma Set_has_str (l : list value) (s : string) :
  Set_has l (VStr s) = true <-> In (VStr s) l.
Proof.
  unfold Set_has, SameValueZero. rewrite existsb_exists. split.
  - intros (y & Hy & E). rewrite strict_equal_sym in E.
    apply strict_equal_str in E. now subst.
  - intros H. exists (VStr s). split; [exact H|]. simpl. apply String.eqb_refl.
Qed.

(** A value that equals a member of the set is found in the set. *)
Lemma Set_has_absorb (s : list value) (a x : value) :
  Set_has s a = true -> SameValueZero x a = true -> Set_has s x = true.
Proof.
  unfold SameValueZero. intros H E.
  now rewrite (strict_equal_eq _ _ E).
Qed.

Lemma Set_has_fold (l acc : list value) (x : value) :
  Set_has (fold_left Set_add l acc) x = Set_has acc x || existsb (SameValueZero x) l.
Proof.
  revert acc. induction l as [|a l IH]; intros acc; simpl.
  - now rewrite orb_false_r.
  - rewrite IH. unfold Set_add. destruct (Set_has acc a) eqn:Ha.
    + destruct (SameValueZero x a) eqn:E; [|reflexivity].
      now rewrite (Set_has_absorb acc a x Ha E).
    + rewrite Set_has_app. simpl. unfold Set_has at 2. simpl.
      now rewrite orb_false_r, orb_assoc.
Qed.

Lemma Set_has_new_Set (l : list value) (x : value) :
  Set_has (new_Set l) x = existsb (SameValueZero x) l.
Proof. unfold new_Set. now rewrite Set_has_fold. Qed.

(** ** The import's filter *)

Lemma valid_of_fold (items acc : list value) :
  fold_left (fun acc item => if usable item then acc ++ [normalized item] else acc)
            items acc
  = acc ++ map normalized (filter usable items).
Proof.
  revert acc. induction items as [|i items IH]; intros acc; simpl.
  - now rewrite app_nil_r.
  - rewrite IH. destruct (usable i); simpl; [|reflexivity].
    now rewrite <- app_assoc.
Qed.

Lemma valid_of_map_filter (items : list value) :
  valid_of items = map normalized (filter usable items).
Proof. unfold valid_of. now rewrite valid_of_fold. Qed.

Lemma typeof_string (v : value) :
  (typeof v =? "string") = true <-> exists s, v = VStr s.
Proof.
  split.
  - destruct v; simpl; try discriminate. intros _. now eexists.
  - intros [s ->]. reflexivity.
Qed.

Lemma usable_spec (item : value) :
  usable item = true <->
  exists t, get item "text" = VStr t /\ trim t <> "".
Proof.
  unfold usable. split.
  - intros H. apply andb_prop in H as [H H3]. apply andb_prop in H as [_ H2].
    apply typeof_string in H2 as [t Ht]. exists t. split; [exact Ht|].
    rewrite Ht in H3. simpl in H3. apply negb_true_iff in H3.
    now apply String.eqb_neq.
  - intros (t & Ht & Hne). rewrite Ht. simpl.
    destruct item; try discriminate Ht. simpl.
    apply negb_true_iff. now apply String.eqb_neq.
Qed.

Lemma normalized_clean (item : value) :
  usable item = true -> has_clean_text (normalized item).
Proof.
  intros H. apply usable_spec in H as (t & Ht & Hne).
  exists (trim t). unfold normalized. rewrite Ht. simpl.
  split; [reflexivity|]. split; [exact Hne|]. apply trim_idempotent.
Qed.

Lemma valid_of_clean (items : list value) : Forall has_clean_text (valid_of items).
Proof.
  rewrite valid_of_map_filter. apply Forall_forall. intros q Hq.
  apply in_map_iff in Hq as (i & <- & Hi). apply filter_In in Hi as [_ Hi].
  now apply normalized_clean.
Qed.

Lemma clean_is_string (q : value) : has_clean_text q -> text_is_string q.
Proof. intros (t & Ht & _). now exists t. Qed.

(** ** What each function leaves alone *)

Lemma quotes_saveQuotes (h : host) (w : world) :
  quotes (saveQuotes h w) = quotes w.
Proof.
  unfold saveQuotes, setItem.
  destruct (quota h _); reflexivity.
Qed.

Lemma quotes_filterQuotes (h : host) (w : world) :
  quotes (snd (filterQuotes h w)) = quotes w.
Proof. by_cases_of_filterQuotes w. Qed.

Lemma quotes_populateCategories (h : host) (w : world) :
  quotes (snd (populateCategories h w)) = quotes w.
Proof. by_cases_of_populateCategories w quotes_filterQuotes. Qed.

Lemma quotes_showRandomQuote (h : host) (w : world) :
  quotes (snd (showRandomQuote h w)) = quotes w.
Proof.
  unfold showRandomQuote. destruct (quotes w) eqn:E; [simpl; congruence|].
  destruct (markup _); simpl; congruence.
Qed.

Lemma localStorage_showRandomQuote (h : host) (w : world) :
  localStorage (snd (showRandomQuote h w)) = localStorage w.
Proof.
  unfold showRandomQuote. destruct (quotes w); [reflexivity|].
  now destruct (markup _).
Qed.

Lemma alerts_showRandomQuote (h : host) (w : world) :
  alerts (snd (showRandomQuote h w)) = alerts w.
Proof.
  unfold showRandomQuote. destruct (quotes w); [reflexivity|].
  now destruct (markup _).
Qed.

Lemma quotes_import_finish (h : host) (n : nat) (w : world) :
  quotes (import_finish h n w) = quotes w.
Proof. unfold import_finish. simpl. apply quotes_saveQuotes. Qed.

Lemma quotes_init (h : host) (w : world) :
  quotes (snd (init h w)) = quotes w.
Proof.
  unfold init.
  pose proof (quotes_populateCategories h w) as Hp.
  destruct (populateCategories h w) as [[|e] w1]; simpl in Hp |- *; [|exact Hp].
  destruct (dq_last_quote w1) as [[| |v]|]; simpl;
    rewrite ?quotes_showRandomQuote; try exact Hp.
  destruct (last_markup v); simpl; rewrite ?quotes_showRandomQuote; exact Hp.
Qed.

Lemma quotes_start (w : world) : quotes (start w) = fst (loadQuotes w).
Proof. unfold start. now destruct (loadQuotes w). Qed.

(** ** The elements the store inserts *)

Lemma well_formed_clean (q : value) : well_formed q -> has_clean_text q.
Proof. now intros [H _]. Qed.

Lemma trim_or_empty_trimmed (v : value) (a : string) :
  trim_or_empty v = Some a -> trim a = a.
Proof.
  unfold trim_or_empty. destruct (truthy v).
  - destruct v; simpl; try discriminate. intros [= <-]. apply trim_idempotent.
  - intros [= <-]. reflexivity.
Qed.

Lemma trimmed_string_trimmed (v : value) :
  trim (trimmed_string v) = trimmed_string v.
Proof.
  unfold trimmed_string. destruct (truthy v && _); [|reflexivity].
  destruct v; simpl; try reflexivity. apply trim_idempotent.
Qed.

Lemma mkQuote_well_formed (t a c : string) :
  t <> "" -> trim t = t -> trim a = a -> trim c = c -> well_formed (mkQuote t a c).
Proof.
  intros Hne Ht Ha Hc. split; [|split].
  - now exists t.
  - right. now exists a.
  - right. now exists c.
Qed.

Lemma normalized_well_formed (item : value) :
  usable item = true -> well_formed (normalized item).
Proof.
  intros H. apply usable_spec in H as (t & Ht & Hne).
  unfold normalized. rewrite Ht. simpl.
  apply mkQuote_well_formed; auto using trim_idempotent, trimmed_string_trimmed.
Qed.

Lemma valid_of_well_formed (items : list value) : Forall well_formed (valid_of items).
Proof.
  rewrite valid_of_map_filter. apply Forall_forall. intros q Hq.
  apply in_map_iff in Hq as (i & <- & Hi). apply filter_In in Hi as [_ Hi].
  now apply normalized_well_formed.
Qed.

Lemma toAdd_of_incl (qs valid : list value) : incl (toAdd_of qs valid) valid.
Proof. unfold toAdd_of. intros q Hq. now apply filter_In in Hq. Qed.

(** [add] leaves the collection alone or appends one Quote. *)
Lemma addQuote_quotes (h : host) (arg : value) (w : world) :
  quotes (snd (addQuote h arg w)) = quotes w \/
  exists q, well_formed q /\ quotes (snd (addQuote h arg w)) = quotes w ++ [q].
Proof.
  unfold addQuote.
  destruct arg; try (now left);
    (destruct (negb (truthy _) || _ || _) eqn:Hbad; [now left|]);
    (destruct (method_trim _) as [t|] eqn:Ht; [|now left]);
    (destruct (trim_or_empty (default_empty (get _ "author"))) as [a|] eqn:Ha; [|now left]);
    (destruct (trim_or_empty (default_empty (get _ "category"))) as [c|] eqn:Hc; [|now left]);
    (destruct (_ && negb _); [now left|]);
    right; exists (mkQuote t a c);
    (split; [|rewrite quotes_populateCategories; simpl; now rewrite quotes_saveQuotes]);
    apply orb_false_elim in Hbad as [_ Hbad];
    (apply mkQuote_well_formed;
     [ now apply String.eqb_neq
     | destruct (get _ "text"); try discriminate Ht; injection Ht as <-;
       apply trim_idempotent
     | eapply trim_or_empty_trimmed; eassumption
     | eapply trim_or_empty_trimmed; eassumption ]).
Qed.

(** [importBatch] leaves the collection alone or appends Quotes. *)
Lemma importFromJsonFile_quotes (h : host) (file : option text) (w : world) :
  quotes (importFromJsonFile h file w) = quotes w \/
  exists added,
    Forall well_formed added /\
    quotes (importFromJsonFile h file w) = quotes w ++ added.
Proof.
  unfold importFromJsonFile.
  destruct file as [result|]; [|now left].
  destruct (JSON_parse result) as [[| | | | |imported|]|]; try (now left).
  pose proof (valid_of_well_formed imported) as Hv.
  destruct (valid_of imported) as [|v valid] eqn:Ev; [now left|].
  destruct (toAdd_of (quotes w) (v :: valid)) as [|a toAdd] eqn:Ea.
  - destruct (negb _); [now left|]. right. exists (v :: valid).
    split; [exact Hv|]. now rewrite quotes_import_finish.
  - right. exists (a :: toAdd). split; [|now rewrite quotes_import_finish].
    rewrite <- Ea. apply Forall_forall. intros q Hq.
    apply toAdd_of_incl in Hq. rewrite Forall_forall in Hv. now apply Hv.
Qed.

(** [clearAll] leaves the collection alone or empties it. *)
Lemma clearAllQuotes_quotes (h : host) (w : world) :
  quotes (snd (clearAllQuotes h w)) = quotes w \/
  quotes (snd (clearAllQuotes h w)) = [].
Proof.
  unfold clearAllQuotes. destruct (negb _); [now left|]. right.
  rewrite quotes_populateCategories. simpl. now rewrite quotes_saveQuotes.
Qed.

(** Every event keeps a property of the elements that Quotes have. *)
Lemma handle_preserves (P : value -> Prop) (h : host) (e : event) (w : world) :
  (forall q, well_formed q -> P q) ->
  Forall P (quotes w) -> Forall P (quotes (handle h e w)).
Proof.
  intros HP Hw. unfold handle. destruct e as [arg|file| |v| |]; simpl.
  - destruct (addQuote_quotes h arg w) as [-> | (q & Hq & ->)]; [exact Hw|].
    apply Forall_app. split; [exact Hw|]. constructor; [now apply HP|constructor].
  - destruct (importFromJsonFile_quotes h file w) as [-> | (added & Ha & ->)];
      [exact Hw|].
    apply Forall_app. split; [exact Hw|].
    eapply Forall_impl; [|exact Ha]. exact HP.
  - destruct (clearAllQuotes_quotes h w) as [-> | ->]; [exact Hw|constructor].
  - destruct (categoryFilter w) as [sel|]; [|exact Hw].
    destruct (existsb _ _); [|exact Hw].
    now rewrite quotes_filterQuotes.
  - now rewrite quotes_showRandomQuote.
  - exact Hw.
Qed.

Lemma has_string_text_spec (q : value) :
  has_string_text q = true -> text_is_string q.
Proof.
  unfold has_string_text. intros H. apply andb_prop in H as [_ H].
  now apply typeof_string in H.
Qed.

Lemma DEFAULT_QUOTES_well_formed : Forall well_formed DEFAULT_QUOTES.
Proof.
  unfold DEFAULT_QUOTES.
  repeat constructor;
    try (eexists; repeat split; discriminate);
    right; eexists; split; reflexivity.
Qed.

Lemma loadQuotes_cases (w : world) :
  fst (loadQuotes w) = DEFAULT_QUOTES \/
  exists items,
    dq_quotes_v1 (localStorage w) = Some (Document (VArr items)) /\
    fst (loadQuotes w) = filter has_string_text items.
Proof.
  unfold loadQuotes.
  destruct (dq_quotes_v1 (localStorage w)) as [[| |v]|]; try (now left).
  destruct v; try (now left). right. now eexists.
Qed.

Lemma loadQuotes_strings (w : world) : Forall text_is_string (fst (loadQuotes w)).
Proof.
  destruct (loadQuotes_cases w) as [-> | (items & _ & ->)].
  - eapply Forall_impl; [|exact DEFAULT_QUOTES_well_formed].
    intros q Hq. now apply clean_is_string, well_formed_clean.
  - apply Forall_forall. intros q Hq. apply filter_In in Hq as [_ Hq].
    now apply has_string_text_spec.
Qed.

Lemma loadQuotes_clean (w : world) :
  stored_clean w -> Forall has_clean_text (fst (loadQuotes w)).
Proof.
  intros Hs. destruct (loadQuotes_cases w) as [-> | (items & E & ->)].
  - eapply Forall_impl; [|exact DEFAULT_QUOTES_well_formed].
    exact well_formed_clean.
  - specialize (Hs items E). rewrite Forall_forall in Hs.
    apply Forall_forall. intros q Hq. apply filter_In in Hq as [Hin Hq].
    now apply Hs.
Qed.

(** ** The invariant of the collection *)

Lemma run_strings (w0 w : world) :
  run w0 w -> Forall text_is_string (quotes w).
Proof.
  induction 1 as [h | h e w Hrun IH].
  - rewrite quotes_init, quotes_start. apply loadQuotes_strings.
  - apply handle_preserves; [|exact IH].
    intros q Hq. now apply clean_is_string, well_formed_clean.
Qed.

(** C1, as the code has it: in every world the page reaches, every element
    of the collection has a string [text]; and every element has a
    non-empty trimmed [text] provided the collection that was stored when
    the page was loaded, if any, held no string [text] that is empty or
    untrimmed ([initialize] keeps every stored element with a string
    [text]; [add] and [importBatch] insert only trimmed non-empty texts,
    [clearAll] empties the collection). *)
Theorem collection_texts (w0 w : world) :
  run w0 w ->
  Forall text_is_string (quotes w) /\
  (stored_clean w0 -> Forall has_clean_text (quotes w)).
Proof.
  intros Hrun. split; [now apply run_strings with w0|].
  intros Hs. induction Hrun as [h | h e w Hrun IH].
  - rewrite quotes_init, quotes_start. now apply loadQuotes_clean.
  - apply handle_preserves; [exact well_formed_clean|exact IH].
Qed.

Lemma collection_texts_witness :
  run fresh (handle (user true) (AddQuote (mkQuote " Hello " "X" "Y"))
               (snd (init (user true) (start fresh)))) /\
  Forall has_clean_text
    (quotes (handle (user true) (AddQuote (mkQuote " Hello " "X" "Y"))
               (snd (init (user true) (start fresh))))).
Proof.
  split.
  - apply run_event, run_init.
  - apply (collection_texts fresh _ (run_event fresh _ _ _ (run_init fresh (user true)))).
    intros items E. discriminate E.
Defined.

(** C1, as stated, fails: loaded on a page whose storage holds the array
    [[{"text": " "}]], the script keeps the element, whose trimmed text is
    empty. *)
Lemma initialize_keeps_blank_text :
  reachable (snd (init (user true) (start blank_stored))) /\
  quotes (snd (init (user true) (start blank_stored))) = [VObj [("text", VStr " ")]] /\
  ~ Forall has_clean_text (quotes (snd (init (user true) (start blank_stored)))).
Proof.
  split; [|split].
  - exists blank_stored. apply run_init.
  - reflexivity.
  - intros H. change (quotes _) with [VObj [("text", VStr " ")]] in H.
    inversion H as [|q l (t & Ht & Hne & Htr) _]; subst.
    simpl in Ht. injection Ht as <-. discriminate Htr.
Qed.

(** The elements of a reachable collection are objects: the property reads
    on them are reads from objects. *)
Lemma quotes_are_objects (w : world) :
  reachable w -> Forall (fun q => exists props, q = VObj props) (quotes w).
Proof.
  intros [w0 Hrun]. eapply Forall_impl; [|exact (run_strings w0 w Hrun)].
  intros q [t Ht]. destruct q; try discriminate Ht. now eexists.
Qed.

(** ** Validation of a candidate *)

(** C3: for a candidate whose [text] is absent, empty or made of white
    space only, [add] returns after telling the user, and changes neither
    the collection nor the durable storage. *)
Theorem addQuote_rejects_blank_text (h : host) (props : list (string * value)) (w : world) :
  blank_text (get (VObj props) "text") ->
  fst (addQuote h (VObj props) w) = Normal /\
  alerts (snd (addQuote h (VObj props) w)) = alerts w ++ ["Please provide quote text."] /\
  quotes (snd (addQuote h (VObj props) w)) = quotes w /\
  localStorage (snd (addQuote h (VObj props) w)) = localStorage w.
Proof.
  intros Hblank. unfold addQuote.
  destruct Hblank as [-> | (s & -> & Hs)].
  - simpl. repeat split.
  - simpl. rewrite Hs. simpl. rewrite orb_true_r. simpl. repeat split.
Qed.

Lemma addQuote_rejects_blank_text_witness :
  blank_text (get (VObj [("text", VStr "   ")]) "text") /\
  fst (addQuote (user true) (VObj [("text", VStr "   ")]) fresh) = Normal /\
  alerts (snd (addQuote (user true) (VObj [("text", VStr "   ")]) fresh))
    = alerts fresh ++ ["Please provide quote text."] /\
  quotes (snd (addQuote (user true) (VObj [("text", VStr "   ")]) fresh)) = quotes fresh /\
  localStorage (snd (addQuote (user true) (VObj [("text", VStr "   ")]) fresh))
    = localStorage fresh.
Proof.
  assert (H : blank_text (get (VObj [("text", VStr "   ")]) "text")).
  { right. exists "   ". split; reflexivity. }
  split; [exact H|].
  exact (addQuote_rejects_blank_text (user true) [("text", VStr "   ")] fresh H).
Defined.

(** ** The import's partition into new items and duplicates *)

Lemma unseen_spec (qs : list value) (q : value) :
  text_is_string q -> (unseen qs q = true <-> is_new qs q).
Proof.
  intros [t Ht]. unfold unseen, is_new. rewrite negb_true_iff. split.
  - intros H e He E.
    assert (X : existsb (fun e => strict_equal (get e "text") (get q "text")) qs = true).
    { apply existsb_exists. exists e. split; [exact He|].
      rewrite E, Ht. apply strict_equal_str. reflexivity. }
    congruence.
  - intros H. destruct (existsb _ qs) eqn:X; [|reflexivity].
    apply existsb_exists in X as (e & He & E).
    apply strict_equal_eq in E. now elim (H e He).
Qed.

Lemma toAdd_of_unseen (qs valid : list value) :
  toAdd_of qs valid = filter (unseen qs) valid.
Proof.
  unfold toAdd_of. apply filter_ext. intros q.
  rewrite Set_has_new_Set. unfold unseen, SameValueZero. f_equal.
  induction qs as [|e qs IH]; simpl; [reflexivity|].
  now rewrite IH, strict_equal_sym.
Qed.

Lemma alerts_saveQuotes (h : host) (w : world) :
  alerts (saveQuotes h w) = alerts w.
Proof. unfold saveQuotes, setItem. destruct (quota h _); reflexivity. Qed.

Lemma alerts_import_finish (h : host) (n : nat) (w : world) :
  alerts (import_finish h n w)
  = alerts w ++ [imported_message n; "Error parsing JSON file."].
Proof.
  unfold import_finish. simpl. rewrite alerts_saveQuotes.
  now rewrite <- app_assoc.
Qed.

(** The import of a file that holds an array, by cases. *)
Lemma import_array (h : host) (items : list value) (w : world) :
  importFromJsonFile h (Some (Document (VArr items))) w =
  match valid_of items with
  | [] => alert "No valid quotes found in imported file." w
  | _ =>
      match filter (unseen (quotes w)) (valid_of items) with
      | [] =>
          if confirm h "All imported quotes already exist. Append duplicates?"
          then import_finish h 0 (push (valid_of items) w)
          else w
      | new => import_finish h (length new) (push new w)
      end
  end.
Proof.
  unfold importFromJsonFile. simpl. rewrite toAdd_of_unseen.
  destruct (valid_of items) as [|v valid]; [reflexivity|].
  destruct (filter _ _) as [|a new]; [|reflexivity].
  simpl. now destruct (confirm h _).
Qed.

(** C2, as the code has it: when the filtered set is not empty, the items
    whose text no element of the collection has are appended if there are
    any, and the user is told their number; when there is none, the whole
    filtered set is appended if the user confirms, and the user is then
    told 0, the number of new items; if the user declines, nothing
    changes and nothing is told. *)
Theorem import_appends_and_reports (h : host) (items : list value) (w : world) :
  valid_of items <> [] ->
  let valid := valid_of items in
  let new := filter (unseen (quotes w)) valid in
  let w' := importFromJsonFile h (Some (Document (VArr items))) w in
  (new <> [] -> quotes w' = quotes w ++ new /\ reports w w' (length new)) /\
  (new = [] ->
   confirm h "All imported quotes already exist. Append duplicates?" = true ->
   quotes w' = quotes w ++ valid /\ reports w w' 0) /\
  (new = [] ->
   confirm h "All imported quotes already exist. Append duplicates?" = false ->
   w' = w).
Proof.
  intros Hvalid valid new w'. subst w'. rewrite import_array.
  fold valid. fold new.
  destruct valid as [|v valid'] eqn:Ev; [contradiction|]. rewrite <- Ev.
  destruct new as [|a new'] eqn:En.
  - split; [intros X; contradiction|]. split; intros _ Hc; rewrite Hc.
    + rewrite quotes_import_finish. split; [reflexivity|].
      eexists. rewrite alerts_import_finish. simpl. reflexivity.
    + reflexivity.
  - rewrite <- En. split; [|split; intros X; rewrite En in X; discriminate X].
    intros _. rewrite quotes_import_finish. split; [reflexivity|].
    eexists. rewrite alerts_import_finish. reflexivity.
Qed.

Lemma import_appends_and_reports_witness :
  valid_of twice_file <> [] /\
  quotes (importFromJsonFile (user true) (Some (Document (VArr twice_file))) one_quote)
  = quotes one_quote ++ [mkQuote "x" "A" ""; mkQuote "x" "B" ""] /\
  reports one_quote
    (importFromJsonFile (user true) (Some (Document (VArr twice_file))) one_quote) 2.
Proof.
  assert (H : valid_of twice_file <> []) by discriminate.
  split; [exact H|].
  apply (import_appends_and_reports (user true) twice_file one_quote H).
  discriminate.
Defined.

(** C2, as stated, fails: a file whose only item repeats the text of the
    collection's quote is appended once the user confirms, so one item is
    added, and the user is told that 0 quotes were imported. *)
Lemma duplicates_are_reported_as_zero :
  quotes (importFromJsonFile (user true) same_text_file one_quote)
  = quotes one_quote ++ [mkQuote "a" "" ""] /\
  reports one_quote (importFromJsonFile (user true) same_text_file one_quote) 0 /\
  ~ reports one_quote (importFromJsonFile (user true) same_text_file one_quote) 1.
Proof.
  split; [reflexivity|]. split.
  - eexists. reflexivity.
  - intros [rest H]. discriminate H.
Qed.

Lemma filter_absorb {A : Type} (P K : A -> bool) (l : list A) :
  (forall x, In x l -> P x = true -> K x = true) ->
  filter P (filter K l) = filter P l.
Proof.
  induction l as [|x l IH]; intros H; simpl; [reflexivity|].
  assert (IH' : filter P (filter K l) = filter P l).
  { apply IH. intros y Hy. apply H. now right. }
  destruct (K x) eqn:Kx; simpl.
  - now rewrite IH'.
  - destruct (P x) eqn:Px; [|exact IH'].
    rewrite (H x (or_introl eq_refl) Px) in Kx. discriminate Kx.
Qed.

Lemma filter_none {A : Type} (K : A -> bool) (l : list A) :
  (forall x, In x l -> K x = false) -> filter K l = [].
Proof.
  induction l as [|x l IH]; intros H; simpl; [reflexivity|].
  rewrite (H x (or_introl eq_refl)). apply IH. intros y Hy. apply H. now right.
Qed.

Lemma valid_of_strings (items : list value) (q : value) :
  In q (valid_of items) -> text_is_string q.
Proof.
  intros Hq. pose proof (valid_of_clean items) as H.
  rewrite Forall_forall in H. now apply clean_is_string, H.
Qed.

(** C10: when some filtered item is new, the items appended are those
    whose text no element of the collection had before the import; so all
    the items of the file that share a text the collection did not have
    are appended, however often the text occurs in the file. *)
Theorem import_keeps_repeated_texts (h : host) (items : list value) (w : world) :
  (exists q, In q (valid_of items) /\ is_new (quotes w) q) ->
  exists added,
    quotes (importFromJsonFile h (Some (Document (VArr items))) w) = quotes w ++ added /\
    Forall (is_new (quotes w)) added /\
    forall t,
      (forall e, In e (quotes w) -> get e "text" <> VStr t) ->
      filter (fun q => strict_equal (get q "text") (VStr t)) added
      = filter (fun q => strict_equal (get q "text") (VStr t)) (valid_of items).
Proof.
  intros (q0 & Hin & Hnew).
  exists (filter (unseen (quotes w)) (valid_of items)).
  assert (H0 : In q0 (filter (unseen (quotes w)) (valid_of items))).
  { apply filter_In. split; [exact Hin|].
    apply unseen_spec; [now apply valid_of_strings with items|exact Hnew]. }
  split; [|split].
  - rewrite import_array.
    destruct (valid_of items) as [|v valid] eqn:Ev; [destruct Hin|].
    destruct (filter _ (v :: valid)) as [|a new] eqn:En; [destruct H0|].
    apply quotes_import_finish.
  - apply Forall_forall. intros q Hq. apply filter_In in Hq as [Hq Hu].
    apply unseen_spec in Hu; [exact Hu|now apply valid_of_strings with items].
  - intros t Ht. apply filter_absorb. intros q Hq Hqt.
    apply strict_equal_str in Hqt.
    apply unseen_spec; [now exists t|].
    intros e He. rewrite Hqt. now apply Ht.
Qed.

Lemma import_keeps_repeated_texts_witness :
  (exists q, In q (valid_of twice_file) /\ is_new (quotes one_quote) q) /\
  exists added,
    quotes (importFromJsonFile (user true) (Some (Document (VArr twice_file))) one_quote)
    = quotes one_quote ++ added /\
    Forall (is_new (quotes one_quote)) added /\
    forall t,
      (forall e, In e (quotes one_quote) -> get e "text" <> VStr t) ->
      filter (fun q => strict_equal (get q "text") (VStr t)) added
      = filter (fun q => strict_equal (get q "text") (VStr t)) (valid_of twice_file).
Proof.
  assert (H : exists q, In q (valid_of twice_file) /\ is_new (quotes one_quote) q).
  { exists (mkQuote "x" "A" ""). split; [now left|].
    intros e [<- | []]. discriminate. }
  split; [exact H|].
  exact (import_keeps_repeated_texts (user true) twice_file one_quote H).
Defined.

(** Both items of [twice_file] with the text [x] are appended. *)
Example repeated_text_appended_twice :
  quotes (importFromJsonFile (user true) (Some (Document (VArr twice_file))) one_quote)
  = [mkQuote "a" "" ""; mkQuote "x" "A" ""; mkQuote "x" "B" ""].
Proof. reflexivity. Qed.

(** ** Importing the same file again *)

Lemma unseen_app (qs more : list value) (q : value) :
  unseen (qs ++ more) q = unseen qs q && unseen more q.
Proof. unfold unseen. now rewrite existsb_app, negb_orb. Qed.

Lemma unseen_member (qs : list value) (q : value) :
  text_is_string q -> In q qs -> unseen qs q = false.
Proof.
  intros [t Ht] Hq. unfold unseen. apply negb_false_iff, existsb_exists.
  exists q. split; [exact Hq|]. rewrite Ht. now apply strict_equal_str.
Qed.

(** Once the collection holds the new items of a file, or its whole
    filtered set, the file has no new item left. *)
Lemma nothing_new_after (qs valid more : list value) :
  (forall q, In q valid -> text_is_string q) ->
  (forall q, In q valid -> unseen qs q = true -> In q more) ->
  filter (unseen (qs ++ more)) valid = [].
Proof.
  intros Hs Hm. apply filter_none. intros q Hq. rewrite unseen_app.
  destruct (unseen qs q) eqn:U; [|reflexivity]. simpl.
  apply unseen_member; auto.
Qed.

Lemma nothing_new_after_import (h : host) (items : list value) (w : world) :
  valid_of items <> [] ->
  filter (unseen (quotes (importFromJsonFile h (Some (Document (VArr items))) w)))
         (valid_of items) = [].
Proof.
  intros Hv. rewrite import_array.
  destruct (valid_of items) as [|v valid] eqn:Ev; [contradiction|]. rewrite <- Ev.
  assert (Hs : forall q, In q (valid_of items) -> text_is_string q)
    by (intros q; apply valid_of_strings).
  destruct (filter (unseen (quotes w)) (valid_of items)) as [|a new] eqn:En.
  - destruct (confirm h _); [|exact En].
    rewrite quotes_import_finish. simpl. apply nothing_new_after; auto.
  - rewrite quotes_import_finish. simpl. rewrite <- En.
    apply nothing_new_after; [exact Hs|].
    intros q Hq Hu. apply filter_In. now split.
Qed.

(** C5: after an import, importing the same file again and declining to
    append duplicates leaves the collection, and the stored one, as the
    first import left them. *)
Theorem second_import_changes_nothing (h1 h2 : host) (file : option text) (w : world) :
  confirm h2 "All imported quotes already exist. Append duplicates?" = false ->
  quotes (importFromJsonFile h2 file (importFromJsonFile h1 file w))
  = quotes (importFromJsonFile h1 file w) /\
  localStorage (importFromJsonFile h2 file (importFromJsonFile h1 file w))
  = localStorage (importFromJsonFile h1 file w).
Proof.
  intros Hno.
  destruct file as [[| |v]|]; try (split; reflexivity).
  destruct v as [| | | | |items|]; try (split; reflexivity).
  destruct (valid_of items) as [|v valid] eqn:Ev.
  - rewrite !import_array, Ev. split; reflexivity.
  - assert (Hv : valid_of items <> []) by (rewrite Ev; discriminate).
    pose proof (nothing_new_after_import h1 items w Hv) as Hnone.
    rewrite (import_array h2), Ev, <- Ev, Hnone, Hno. split; reflexivity.
Qed.

Lemma second_import_changes_nothing_witness :
  confirm (user false) "All imported quotes already exist. Append duplicates?" = false /\
  quotes (importFromJsonFile (user false) (Some (Document (VArr twice_file)))
            (importFromJsonFile (user true) (Some (Document (VArr twice_file))) one_quote))
  = quotes (importFromJsonFile (user true) (Some (Document (VArr twice_file))) one_quote) /\
  localStorage (importFromJsonFile (user false) (Some (Document (VArr twice_file)))
            (importFromJsonFile (user true) (Some (Document (VArr twice_file))) one_quote))
  = localStorage (importFromJsonFile (user true) (Some (Document (VArr twice_file))) one_quote).
Proof.
  split; [reflexivity|].
  exact (second_import_changes_nothing (user true) (user false)
           (Some (Document (VArr twice_file))) one_quote eq_refl).
Defined.

(** ** Export, then import into an empty store *)

Lemma get_serializable (props : list (string * value)) (k s : string) :
  get (VObj props) k = VStr s -> get (serializable (VObj props)) k = VStr s.
Proof.
  simpl. induction props as [|[k0 x] props IH]; simpl; [discriminate|].
  destruct (k0 =? k) eqn:E.
  - intros H. simpl in H. subst x. simpl. now rewrite E.
  - intros H. specialize (IH H).
    destruct x; simpl; rewrite ?E; exact IH.
Qed.

Lemma trimmed_string_fixed (a : string) : trim a = a -> trimmed_string (VStr a) = a.
Proof.
  intros H. unfold trimmed_string. simpl.
  destruct (a =? "") eqn:E; simpl; [|exact H].
  apply String.eqb_eq in E. now subst.
Qed.

Lemma has_own_false_get (props : list (string * value)) (k : string) :
  has_own (VObj props) k = false -> get (VObj props) k = VUndefined.
Proof.
  simpl. induction props as [|[k0 x] props IH]; simpl; [reflexivity|].
  destruct (k0 =? k); [discriminate|exact IH].
Qed.

Lemma has_own_false_serializable (props : list (string * value)) (k : string) :
  has_own (VObj props) k = false -> get (serializable (VObj props)) k = VUndefined.
Proof.
  simpl. induction props as [|[k0 x] props IH]; simpl; [reflexivity|].
  destruct (k0 =? k) eqn:E; [discriminate|]. intros H. specialize (IH H).
  destruct x; simpl; rewrite ?E; exact IH.
Qed.

(** What the importer makes of an optional attribute of an exported
    Quote. *)
Lemma field_round_trip (props : list (string * value)) (k : string) :
  trimmed_field (VObj props) k ->
  VStr (trimmed_string (get (serializable (VObj props)) k))
  = default_empty (get (VObj props) k).
Proof.
  intros [H | (s & Hs & Htr)].
  - now rewrite (has_own_false_get _ _ H), (has_own_false_serializable _ _ H).
  - rewrite (get_serializable _ _ _ Hs), Hs. simpl.
    now rewrite trimmed_string_fixed.
Qed.

(** What the importer makes of one exported Quote. *)
Lemma round_trip_item (q : value) :
  well_formed q ->
  usable (match q with VUndefined => VNull | _ => serializable q end) = true /\
  record_of (normalized (match q with VUndefined => VNull | _ => serializable q end))
  = record_of q.
Proof.
  intros ((t & Ht & Hne & Htr) & Ha & Hc).
  destruct q as [| | | | | |props]; try discriminate Ht.
  pose proof (get_serializable props _ _ Ht) as Ht'.
  split.
  - apply usable_spec. exists t. split; [exact Ht'|]. now rewrite Htr.
  - unfold normalized, record_of. rewrite Ht', Ht.
    rewrite <- (field_round_trip props "author" Ha).
    rewrite <- (field_round_trip props "category" Hc).
    simpl. now rewrite Htr.
Qed.

Lemma round_trip_items (qs : list value) :
  Forall well_formed qs ->
  map record_of
    (valid_of (map (fun x => match x with
                             | VUndefined => VNull
                             | _ => serializable x
                             end) qs))
  = map record_of qs.
Proof.
  intros H. rewrite valid_of_map_filter.
  induction H as [|q qs Hq _ IH]; simpl; [reflexivity|].
  destruct (round_trip_item q Hq) as [-> E]. simpl. now rewrite E, IH.
Qed.

Lemma unseen_nil (q : value) : unseen [] q = true.
Proof. reflexivity. Qed.

Lemma filter_all {A : Type} (K : A -> bool) (l : list A) :
  (forall x, K x = true) -> filter K l = l.
Proof.
  intros H. induction l as [|x l IH]; simpl; [reflexivity|].
  now rewrite H, IH.
Qed.

(** C4, as the code has it: a collection of Quotes of the data model
    (non-empty trimmed text; author and category left out or trimmed
    strings), exported and imported into an empty store, is the collection
    of that store: the same [{text, author, category}] records, in the
    same order and as often, whatever texts repeat. *)
Theorem export_import_round_trip (h : host) (src store : world) :
  Forall well_formed (quotes src) ->
  quotes store = [] ->
  map record_of (quotes (importFromJsonFile h (Some (snd (exportToJson src))) store))
  = map record_of (quotes src) /\
  Permutation
    (map record_of (quotes (importFromJsonFile h (Some (snd (exportToJson src))) store)))
    (map record_of (quotes src)).
Proof.
  intros Hwf Hempty.
  assert (E : map record_of
                (quotes (importFromJsonFile h (Some (snd (exportToJson src))) store))
              = map record_of (quotes src)).
  { unfold exportToJson, JSON_stringify. simpl snd.
    change (serializable (VArr (quotes src)))
      with (VArr (map (fun x => match x with
                                | VUndefined => VNull
                                | _ => serializable x
                                end) (quotes src))).
    rewrite import_array, Hempty.
    pose proof (round_trip_items (quotes src) Hwf) as R.
    rewrite (filter_all (unseen [])) by apply unseen_nil.
    destruct (valid_of _) as [|v valid] eqn:Ev.
    - simpl. now rewrite Hempty.
    - rewrite quotes_import_finish. simpl. now rewrite Hempty. }
  split; [exact E|]. rewrite E. apply Permutation_refl.
Qed.

Lemma export_import_round_trip_witness :
  Forall well_formed (quotes (page (DEFAULT_QUOTES ++ DEFAULT_QUOTES) empty_storage)) /\
  quotes fresh = [] /\
  map record_of
    (quotes (importFromJsonFile (user true)
               (Some (snd (exportToJson (page (DEFAULT_QUOTES ++ DEFAULT_QUOTES) empty_storage))))
               fresh))
  = map record_of (DEFAULT_QUOTES ++ DEFAULT_QUOTES).
Proof.
  assert (H : Forall well_formed
                (quotes (page (DEFAULT_QUOTES ++ DEFAULT_QUOTES) empty_storage))).
  { apply Forall_app. split; exact DEFAULT_QUOTES_well_formed. }
  split; [exact H|]. split; [reflexivity|].
  exact (proj1 (export_import_round_trip (user true)
                  (page (DEFAULT_QUOTES ++ DEFAULT_QUOTES) empty_storage) fresh
                  H eq_refl)).
Defined.

(** C4, as stated, fails: the collection that the script keeps when the
    storage holds [[{"text": " "}]] is exported as it is, and the import of
    that file into an empty store finds no usable item: the store stays
    empty. *)
Lemma round_trip_drops_blank_text :
  reachable (snd (init (user true) (start blank_stored))) /\
  quotes (snd (init (user true) (start blank_stored))) = [VObj [("text", VStr " ")]] /\
  quotes fresh = [] /\
  quotes (importFromJsonFile (user true)
            (Some (snd (exportToJson (snd (init (user true) (start blank_stored))))))
            fresh) = [] /\
  ~ Permutation
      (map record_of
         (quotes (importFromJsonFile (user true)
                    (Some (snd (exportToJson (snd (init (user true) (start blank_stored))))))
                    fresh)))
      (map record_of (quotes (snd (init (user true) (start blank_stored))))).
Proof.
  split; [exists blank_stored; apply run_init|].
  split; [reflexivity|]. split; [reflexivity|]. split; [reflexivity|].
  intros P. apply Permutation_length in P. discriminate P.
Qed.

(** ** Selection by category *)




(** The markup of a quote is the markup of that quote, when it is built. *)
Lemma markup_cases (q : value) :
  markup q = Some (QuoteMarkup q) \/ markup q = None.
Proof.
  unfold markup.
  destruct (ToString _), (hole (get q "author")), (hole (get q "category"));
    auto.
Qed.


(** [filterQuotes] once the element is there and the selected category
    is stored. *)
Lemma filterQuotes_stored (h : host) (w : world) (sel : select) :
  categoryFilter w = Some sel ->
  quota h (put_selectedCategory (selected sel) (localStorage w)) = true ->
  filterQuotes h w =
  let w1 := with_localStorage (put_selectedCategory (selected sel) (localStorage w)) w in
  match filtered (selected sel) (quotes w) with
  | [] => (Normal, with_quoteDisplay (TextContent (not_found_message (selected sel))) w1)
  | pool =>
      let random := nth (random_index h (length pool)) pool VUndefined in
      match markup random with
      | None => (Throw TypeError, w1)
      | Some shown =>
          (Normal,
           with_last_quote (Some (JSON_stringify random)) (with_quoteDisplay shown w1))
      end
  end.
Proof.
  intros Hsel Hq. unfold filterQuotes, setItem. rewrite Hsel, Hq. reflexivity.
Qed.




(** No default quote has the category [Z]; the category [wisdom] is not
    the category [Wisdom]. *)
Example no_quote_for_category :
  quoteDisplay (snd (filterQuotes (user true) (filtering "Z" DEFAULT_QUOTES)))
  = TextContent (not_found_message "Z") /\
  quoteDisplay (snd (filterQuotes (user true) (filtering "wisdom" DEFAULT_QUOTES)))
  = TextContent (not_found_message "wisdom") /\
  quoteDisplay (snd (filterQuotes (user true) (filtering "Wisdom" DEFAULT_QUOTES)))
  = QuoteMarkup (nth 1 DEFAULT_QUOTES VUndefined).
Proof. repeat split. Qed.

(** ** The category list *)

Lemma existsb_filter_truthy (c : value) (l : list value) :
  truthy c = true ->
  existsb (SameValueZero c) (filter truthy l) = existsb (SameValueZero c) l.
Proof.
  intros Hc. induction l as [|x l IH]; simpl; [reflexivity|].
  destruct (truthy x) eqn:Tx; simpl; rewrite IH; [reflexivity|].
  destruct (SameValueZero c x) eqn:E; [|reflexivity].
  unfold SameValueZero in E. apply strict_equal_truthy in E. congruence.
Qed.

Lemma new_Set_snoc (l : list value) (c : value) :
  new_Set (l ++ [c]) = Set_add (new_Set l) c.
Proof. unfold new_Set. now rewrite fold_left_app. Qed.

(** The set built from a prefix [p], continued over the rest [l], lists
    after it the first occurrences found in [l]. *)
Lemma new_Set_positions (l p : list value) :
  fold_left Set_add (filter truthy l) (new_Set (filter truthy p))
  = new_Set (filter truthy p)
    ++ flat_map
         (fun i =>
            let c := nth i (p ++ l) VUndefined in
            if truthy c && negb (existsb (SameValueZero c) (firstn i (p ++ l)))
            then [c] else [])
         (seq (length p) (length l)).
Proof.
  revert p. induction l as [|c l IH]; intros p.
  - simpl. now rewrite app_nil_r.
  - cbn [length seq flat_map]. cbv zeta.
    rewrite nth_middle.
    replace (firstn (length p) (p ++ c :: l)) with p
      by (now rewrite firstn_app, Nat.sub_diag, firstn_all, app_nil_r).
    specialize (IH (p ++ [c])).
    rewrite <- app_assoc, length_app, Nat.add_1_r in IH. cbn [app] in IH.
    rewrite filter_app in IH. cbn [filter] in IH |- *.
    destruct (truthy c) eqn:Tc; cbn [andb].
    + rewrite new_Set_snoc in IH. cbn [fold_left]. rewrite IH.
      unfold Set_add. rewrite Set_has_new_Set, (existsb_filter_truthy c p Tc).
      destruct (existsb (SameValueZero c) p); cbn [negb app];
        [reflexivity|now rewrite <- app_assoc].
    + rewrite app_nil_r in IH. exact IH.
Qed.

(** C7: [listCategories] lists the category values of the collection that
    are non-empty, each once, at the place of its first occurrence; for the
    categories [A, B, A] and the empty one it lists [A, B]. *)
Theorem listCategories_first_occurrences (qs : list value) :
  categories_of qs = listCategories_spec qs /\
  categories_of [mkQuote "q1" "" "A"; mkQuote "q2" "" "B";
                 mkQuote "q3" "" "A"; mkQuote "q4" "" ""]
  = [VStr "A"; VStr "B"].
Proof.
  split; [|reflexivity].
  unfold categories_of, listCategories_spec. cbv zeta.
  exact (new_Set_positions (map (fun q => get q "category") qs) []).
Qed.

(** A string is listed when it is not empty and is the category of some
    element. *)
Lemma categories_of_member (qs : list value) (s : string) :
  In (VStr s) (categories_of qs) <->
  s <> "" /\ exists q, In q qs /\ get q "category" = VStr s.
Proof.
  unfold categories_of.
  rewrite <- Set_has_str, Set_has_new_Set.
  change (existsb (SameValueZero (VStr s)) ?l) with (Set_has l (VStr s)).
  rewrite Set_has_str, filter_In, in_map_iff. simpl.
  rewrite negb_true_iff, String.eqb_neq. split.
  - intros [(q & E & Hq) Hs]. split; [exact Hs|]. now exists q.
  - intros [Hs (q & Hq & E)]. split; [now exists q|exact Hs].
Qed.

(** ** The selected category *)

Lemma categoryFilter_filterQuotes (h : host) (w : world) :
  categoryFilter (snd (filterQuotes h w)) = categoryFilter w.
Proof. by_cases_of_filterQuotes w. Qed.

Lemma includes_member (s : string) (l : list value) :
  existsb (SameValueZero (VStr s)) l = true <-> In (VStr s) l.
Proof. exact (Set_has_str l s). Qed.

(** The loop over the categories never moves the selection; it ends
    normally with one option per category when every category has a
    string, and fails otherwise. *)
Lemma append_options_cases (cats : list value) (sel : select) :
  (exists strs,
     Forall2 (fun c s => ToString c = Some s) cats strs /\
     append_options cats sel
     = (Normal, {| options := options sel ++ strs; selected := selected sel |}))
  \/
  (~ Forall convertible cats /\
   exists done,
     append_options cats sel
     = (Throw TypeError, {| options := options sel ++ done; selected := selected sel |})).
Proof.
  revert sel. induction cats as [|c cats IH]; intros sel.
  - left. exists []. split; [constructor|]. cbn. rewrite app_nil_r. now destruct sel.
  - cbn [append_options]. destruct (ToString c) as [s|] eqn:Ec.
    + destruct (IH {| options := options sel ++ [s]; selected := selected sel |})
        as [(strs & F & E) | (Hn & done & E)]; rewrite E; cbn [options selected].
      * left. exists (s :: strs). split; [now constructor|].
        now rewrite <- app_assoc.
      * right. split; [intros H; inversion H; contradiction|].
        exists (s :: done). now rewrite <- app_assoc.
    + right. split.
      * intros H. inversion H as [|? ? Hc _]; subst. now apply Hc.
      * exists []. rewrite app_nil_r. now destruct sel.
Qed.

Lemma labels_convertible (cats : list value) (strs : list string) :
  Forall2 (fun c s => ToString c = Some s) cats strs -> Forall convertible cats.
Proof.
  induction 1 as [|c s cats strs E _ IH]; constructor; [|exact IH].
  unfold convertible. congruence.
Qed.

Lemma option_for_category (s : string) (cats : list value) (strs : list string) :
  Forall2 (fun c s => ToString c = Some s) cats strs ->
  In (VStr s) cats ->
  existsb (String.eqb s) ("all" :: strs) = true.
Proof.
  intros F H. apply existsb_exists. exists s. split; [|apply String.eqb_refl].
  right. induction F as [|c s' cats strs E _ IH]; [destruct H|].
  destruct H as [-> | H]; [left; cbn in E; congruence|right; now apply IH].
Qed.

(** C8, as the code has it: with the filter element in place,
    [populateCategories] leaves it on the stored category only when that
    category is in the category list of the collection (or is ["all"]
    itself), and does so when, moreover, every category of the list has a
    string to label its option with; it leaves it on ["all"] when no
    category is stored, when the stored one is not in the list, and when a
    category of the list has no string (the rebuild of the options then
    fails before the stored category is looked at). *)
Theorem restore_selected_category (h : host) (w : world) (sel0 : select) :
  categoryFilter w = Some sel0 ->
  exists sel,
    categoryFilter (snd (populateCategories h w)) = Some sel /\
    (forall s,
       dq_selectedCategory (localStorage w) = Some s ->
       selected sel = s ->
       s = "all" \/ In (VStr s) (categories_of (quotes w))) /\
    (forall s,
       dq_selectedCategory (localStorage w) = Some s ->
       In (VStr s) (categories_of (quotes w)) ->
       Forall convertible (categories_of (quotes w)) ->
       selected sel = s) /\
    ((forall s,
        dq_selectedCategory (localStorage w) = Some s ->
        ~ In (VStr s) (categories_of (quotes w))) ->
     selected sel = "all") /\
    (~ Forall convertible (categories_of (quotes w)) ->
     fst (populateCategories h w) = Throw TypeError /\ selected sel = "all").
Proof.
  intros Hsel. unfold populateCategories. rewrite Hsel.
  destruct (append_options_cases (categories_of (quotes w))
              {| options := ["all"]; selected := "all" |})
    as [(strs & F & ->) | (Hn & done & ->)]; cbn [options selected app].
  - pose proof (labels_convertible _ _ F) as Hall.
    cbn [localStorage with_categoryFilter].
    destruct (dq_selectedCategory (localStorage w)) as [saved|].
    + destruct (truthy (VStr saved) && _) eqn:B.
      * apply andb_prop in B as [_ B]. apply includes_member in B.
        rewrite categoryFilter_filterQuotes. cbn [categoryFilter with_categoryFilter].
        eexists. split; [reflexivity|].
        unfold set_value. cbn [selected options].
        rewrite (option_for_category saved _ _ F B). split; [|split; [|split]].
        -- intros s [= <-] _. now right.
        -- now intros s [= <-] _ _.
        -- intros H. now elim (H saved eq_refl).
        -- intros H. now elim H.
      * eexists. split; [reflexivity|]. cbn [snd fst categoryFilter with_categoryFilter selected].
        split; [intros s _ <-; now left|].
        split; [|split; [reflexivity|intros H; now elim H]].
        intros s [= <-] Hin _.
        assert (B' : truthy (VStr saved) &&
                     existsb (SameValueZero (VStr saved)) (categories_of (quotes w)) = true).
        { apply andb_true_intro. split; [|now apply includes_member].
          apply categories_of_member in Hin as [Hne _].
          now apply negb_true_iff, String.eqb_neq. }
        congruence.
    + eexists. split; [reflexivity|]. cbn [snd fst categoryFilter with_categoryFilter selected].
      split; [intros s E; discriminate E|].
      split; [|split; [reflexivity|intros H; now elim H]].
      intros s E. discriminate E.
  - eexists. split; [reflexivity|]. cbn [snd fst categoryFilter with_categoryFilter selected].
    split; [intros s _ <-; now left|].
    split; [|split; [reflexivity|now split]].
    intros s _ _ Hall. now elim Hn.
Qed.

Lemma restore_selected_category_witness :
  categoryFilter (page DEFAULT_QUOTES
                    {| dq_quotes_v1 := None; dq_selectedCategory := Some "Wisdom" |})
  = Some {| options := ["all"]; selected := "all" |} /\
  exists sel,
    categoryFilter
      (snd (populateCategories (user true)
              (page DEFAULT_QUOTES
                 {| dq_quotes_v1 := None; dq_selectedCategory := Some "Wisdom" |})))
    = Some sel /\
    selected sel = "Wisdom".
Proof.
  split; [reflexivity|].
  destruct (restore_selected_category (user true)
              (page DEFAULT_QUOTES
                 {| dq_quotes_v1 := None; dq_selectedCategory := Some "Wisdom" |})
              {| options := ["all"]; selected := "all" |} eq_refl)
    as (sel & Hsel & _ & Hin & _).
  exists sel. split; [exact Hsel|].
  apply Hin; [reflexivity|cbn; tauto|].
  repeat constructor; discriminate.
Defined.

(** C8, as stated, fails: the page is loaded on a storage that remembers
    the category [A] and holds a quote of that category together with a
    quote whose category is an object with a [toString] entry.  [A] is in
    the category list, yet [populateCategories] fails with a [TypeError]
    while it builds the options and leaves the filter on ["all"]. *)
Lemma stored_category_is_not_restored :
  reachable (snd (init (user true) (start unlabelled))) /\
  dq_selectedCategory (localStorage (start unlabelled)) = Some "A" /\
  In (VStr "A") (categories_of (quotes (start unlabelled))) /\
  fst (populateCategories (user true) (start unlabelled)) = Throw TypeError /\
  option_map selected
    (categoryFilter (snd (populateCategories (user true) (start unlabelled))))
  = Some "all" /\
  option_map selected (categoryFilter (snd (init (user true) (start unlabelled))))
  = Some "all".
Proof.
  split; [exists unlabelled; apply run_init|].
  split; [reflexivity|]. split; [cbn; tauto|]. now repeat split.
Qed.

(** A stored category of the collection is restored; one that the
    collection no longer has gives way to ["all"]. *)
Example restore_examples :
  option_map selected
    (categoryFilter
       (snd (populateCategories (user true)
               (page DEFAULT_QUOTES
                  {| dq_quotes_v1 := None; dq_selectedCategory := Some "Wisdom" |}))))
  = Some "Wisdom" /\
  option_map selected
    (categoryFilter
       (snd (populateCategories (user true)
               (page DEFAULT_QUOTES
                  {| dq_quotes_v1 := None; dq_selectedCategory := Some "Gone" |}))))
  = Some "all".
Proof. split; reflexivity. Qed.

(** ** A durable write that fails *)


Lemma append_options_normal (cats : list value) (strs : list string) (sel : select) :
  Forall2 (fun c s => ToString c = Some s) cats strs ->
  append_options cats sel
  = (Normal, {| options := options sel ++ strs; selected := selected sel |}).
Proof.
  intros F. revert sel. induction F as [|c s cats strs E _ IH]; intros sel.
  - cbn. rewrite app_nil_r. now destruct sel.
  - cbn [append_options]. rewrite E, IH. cbn [options selected].
    now rewrite <- app_assoc.
Qed.

Lemma labels_cases (cats : list value) :
  (exists strs, Forall2 (fun c s => ToString c = Some s) cats strs)
  \/ ~ Forall convertible cats.
Proof.
  destruct (append_options_cases cats {| options := []; selected := "" |})
    as [(strs & F & _) | (Hn & _)]; [left; now exists strs|now right].
Qed.

(** [populateCategories] once the options are built. *)
Lemma populateCategories_built (h : host) (w : world) (sel0 : select) (strs : list string) :
  categoryFilter w = Some sel0 ->
  Forall2 (fun c s => ToString c = Some s) (categories_of (quotes w)) strs ->
  populateCategories h w =
  match dq_selectedCategory (localStorage w) with
  | Some saved =>
      if truthy (VStr saved)
         && existsb (SameValueZero (VStr saved)) (categories_of (quotes w))
      then filterQuotes h
             (with_categoryFilter
                (Some {| options := "all" :: strs; selected := saved |}) w)
      else (Normal,
            with_categoryFilter (Some {| options := "all" :: strs; selected := "all" |}) w)
  | None =>
      (Normal,
       with_categoryFilter (Some {| options := "all" :: strs; selected := "all" |}) w)
  end.
Proof.
  intros Hsel F. unfold populateCategories.
  rewrite Hsel, (append_options_normal _ _ _ F).
  cbn [options selected app localStorage with_categoryFilter].
  destruct (dq_selectedCategory (localStorage w)) as [saved|]; [|reflexivity].
  destruct (truthy (VStr saved) && _) eqn:B; [|reflexivity].
  apply andb_prop in B as [_ B]. apply includes_member in B.
  unfold set_value. cbn [options selected].
  now rewrite (option_for_category saved _ _ F B).
Qed.

(** [populateCategories] when a category has no string. *)
Lemma populateCategories_fails (h : host) (w : world) (sel0 : select) :
  categoryFilter w = Some sel0 ->
  ~ Forall convertible (categories_of (quotes w)) ->
  populateCategories h w =
  (Throw TypeError,
   with_categoryFilter
     (Some (snd (append_options (categories_of (quotes w))
                   {| options := ["all"]; selected := "all" |}))) w).
Proof.
  intros Hsel Hn. unfold populateCategories. rewrite Hsel.
  destruct (append_options_cases (categories_of (quotes w))
              {| options := ["all"]; selected := "all" |})
    as [(strs & F & _) | (_ & done & ->)]; [|reflexivity].
  elim Hn. now apply labels_convertible with strs.
Qed.




Lemma Set_members (l : list value) (x : value) :
  In x (new_Set l) -> In x l.
Proof.
  unfold new_Set.
  assert (G : forall acc, In x (fold_left Set_add l acc) -> In x acc \/ In x l).
  { induction l as [|a l IH]; intros acc H; [now left|].
    cbn [fold_left] in H. apply IH in H as [H | H]; [|right; now right].
    unfold Set_add in H. destruct (Set_has acc a); [now left|].
    apply in_app_or in H as [H | [<- | []]]; [now left|right; now left]. }
  intros H. now destruct (G [] H).
Qed.




Lemma trim_or_empty_string (a : string) : trim_or_empty (VStr a) = Some (trim a).
Proof.
  unfold trim_or_empty. simpl. destruct (a =? "") eqn:E; simpl; [|reflexivity].
  apply String.eqb_eq in E. now subst.
Qed.

Lemma trimmed_string_cases (v : value) :
  trimmed_string v = match v with VStr s => trim s | _ => "" end.
Proof.
  unfold trimmed_string. destruct v; simpl; try reflexivity;
    try (now destruct b); try (now destruct (n =? 0)%Z).
  destruct (s =? "") eqn:E; simpl; [|reflexivity].
  apply String.eqb_eq in E. now subst.
Qed.

Lemma trim_or_empty_optional (v : value) :
  optional_string v -> trim_or_empty (default_empty v) = Some (trimmed_string v).
Proof.
  rewrite trimmed_string_cases. intros [-> | [s ->]]; simpl.
  - reflexivity.
  - apply trim_or_empty_string.
Qed.

(** [add] on a candidate, by cases. *)
Lemma addQuote_candidate (h : host) (props : list (string * value)) (w : world) :
  candidate (VObj props) ->
  addQuote h (VObj props) w =
  match get (VObj props) "text" with
  | VStr t =>
      if (t =? "") || (trim t =? "")
      then (Normal, alert "Please provide quote text." w)
      else
        let newQuote :=
          mkQuote (trim t) (trimmed_string (get (VObj props) "author"))
                  (trimmed_string (get (VObj props) "category")) in
        if existsb (fun q => strict_equal (get q "text") (VStr (trim t))) (quotes w)
           && negb (confirm h "A quote with the same text already exists. Add anyway?")
        then (Normal, w)
        else
          populateCategories h
            (alert "Quote added and saved to localStorage!"
               (with_last_quote (Some (JSON_stringify newQuote))
                  (with_quoteDisplay (QuoteMarkup newQuote)
                     (saveQuotes h (push [newQuote] w)))))
  | _ => (Normal, alert "Please provide quote text." w)
  end.
Proof.
  intros (_ & Ha & Hc). unfold addQuote.
  rewrite (trim_or_empty_optional _ Ha), (trim_or_empty_optional _ Hc).
  destruct (get (VObj props) "text") as [| |b|n|t| |] eqn:Et;
    try reflexivity; try (now destruct b);
    try (cbn [truthy]; now destruct (n =? 0)%Z).
  cbn [method_trim truthy typeof]. rewrite negb_involutive.
  change ("string" =? "string") with true. cbn [negb]. rewrite orb_false_r.
  destruct ((t =? "") || (trim t =? "")); reflexivity.
Qed.












(** The same failure during an import and during a clear. *)
Example failed_write_examples :
  quotes (handle (full true) (ImportFile (Some (Document (VArr twice_file))))
            (remembering "Wisdom"))
  = DEFAULT_QUOTES ++ [mkQuote "x" "A" ""; mkQuote "x" "B" ""; mkQuote "a" "" ""] /\
  perform (full true) ClearAll (remembering "Wisdom")
  = (Normal,
     with_categoryFilter (Some {| options := ["all"]; selected := "all" |})
       (with_quoteDisplay (TextContent "All quotes deleted.")
          (console_error "Error saving quotes to localStorage:"
             (with_quotes [] (remembering "Wisdom"))))).
Proof. split; reflexivity. Qed.

(** ** Further properties of the store *)

Lemma stored_quotes_filterQuotes (h : host) (w : world) :
  dq_quotes_v1 (localStorage (snd (filterQuotes h w))) = dq_quotes_v1 (localStorage w).
Proof. by_cases_of_filterQuotes w. Qed.

Lemma stored_quotes_populateCategories (h : host) (w : world) :
  dq_quotes_v1 (localStorage (snd (populateCategories h w)))
  = dq_quotes_v1 (localStorage w).
Proof. by_cases_of_populateCategories w stored_quotes_filterQuotes. Qed.

Lemma saveQuotes_accepted (h : host) (w : world) :
  quota h (put_quotes (JSON_stringify (VArr (quotes w))) (localStorage w)) = true ->
  saveQuotes h w
  = with_localStorage (put_quotes (JSON_stringify (VArr (quotes w))) (localStorage w)) w.
Proof. unfold saveQuotes, setItem. now intros ->. Qed.

(** When nothing usable is stored (no item, or text that is not the JSON
    of an array), the page starts with the three default quotes, whose
    categories are listed in their order. *)
Theorem initialize_falls_back_to_defaults (h : host) (w0 : world) :
  (forall items, dq_quotes_v1 (localStorage w0) <> Some (Document (VArr items))) ->
  quotes (snd (init h (start w0))) = DEFAULT_QUOTES /\
  categories_of (quotes (snd (init h (start w0))))
  = [VStr "Inspiration"; VStr "Wisdom"; VStr "Teamwork"].
Proof.
  intros Hno.
  assert (E : quotes (snd (init h (start w0))) = DEFAULT_QUOTES).
  { rewrite quotes_init, quotes_start.
    destruct (loadQuotes_cases w0) as [E | (items & Hs & _)]; [exact E|].
    now elim (Hno items). }
  split; [exact E|]. rewrite E. reflexivity.
Qed.

Lemma initialize_falls_back_to_defaults_witness :
  (forall items, dq_quotes_v1 (localStorage fresh) <> Some (Document (VArr items))) /\
  quotes (snd (init (user true) (start fresh))) = DEFAULT_QUOTES.
Proof.
  assert (H : forall items,
             dq_quotes_v1 (localStorage fresh) <> Some (Document (VArr items)))
    by (intros items; discriminate).
  split; [exact H|].
  exact (proj1 (initialize_falls_back_to_defaults (user true) fresh H)).
Defined.

(** A candidate with a usable text that is new, or whose repetition the
    user confirms, is appended with its three attributes trimmed, and the
    storage, when it accepts the write, holds the resulting collection. *)
Theorem add_appends_and_persists
  (h : host) (props : list (string * value)) (t : string) (w : world) :
  candidate (VObj props) ->
  get (VObj props) "text" = VStr t ->
  trim t <> "" ->
  unseen (quotes w) (mkQuote (trim t) "" "") = true
  \/ confirm h "A quote with the same text already exists. Add anyway?" = true ->
  quotes (snd (addQuote h (VObj props) w))
  = quotes w ++ [mkQuote (trim t) (trimmed_string (get (VObj props) "author"))
                         (trimmed_string (get (VObj props) "category"))] /\
  (quota h (put_quotes (JSON_stringify (VArr (quotes (snd (addQuote h (VObj props) w)))))
                       (localStorage w)) = true ->
   dq_quotes_v1 (localStorage (snd (addQuote h (VObj props) w)))
   = Some (JSON_stringify (VArr (quotes (snd (addQuote h (VObj props) w)))))).
Proof.
  intros Hc Ht Hne Hok. rewrite (addQuote_candidate h props w Hc), Ht.
  assert (Et : (t =? "") || (trim t =? "") = false).
  { apply orb_false_intro; apply String.eqb_neq; [|exact Hne].
    intros ->. now apply Hne. }
  rewrite Et. cbv zeta.
  assert (Ed : existsb (fun q => strict_equal (get q "text") (VStr (trim t))) (quotes w)
               && negb (confirm h "A quote with the same text already exists. Add anyway?")
               = false).
  { destruct Hok as [Hu | Hy].
    - unfold unseen in Hu. apply negb_true_iff in Hu. simpl in Hu. now rewrite Hu.
    - rewrite Hy. apply andb_false_r. }
  rewrite Ed, quotes_populateCategories, stored_quotes_populateCategories.
  cbn [quotes localStorage alert with_last_quote with_quoteDisplay].
  rewrite quotes_saveQuotes. split; [reflexivity|].
  intros Hq. now rewrite saveQuotes_accepted.
Qed.

Lemma add_appends_and_persists_witness :
  quotes (snd (addQuote (user true) (mkQuote "Hello" "X" "Y") (page [] empty_storage)))
  = [mkQuote "Hello" "X" "Y"] /\
  dq_quotes_v1
    (localStorage (snd (addQuote (user true) (mkQuote "Hello" "X" "Y") (page [] empty_storage))))
  = Some (Document (VArr [mkQuote "Hello" "X" "Y"])).
Proof.
  assert (Hc : candidate (mkQuote "Hello" "X" "Y")).
  { split; [now eexists|]. split; right; now eexists. }
  destruct (add_appends_and_persists (user true) _ "Hello" (page [] empty_storage)
              Hc eq_refl ltac:(discriminate) (or_introl eq_refl)) as [Hq Hs].
  split; [exact Hq|]. exact (Hs eq_refl).
Defined.

(** A candidate whose trimmed text some element already has is not added
    when the user declines: the call changes nothing. *)
Theorem add_declined_duplicate
  (h : host) (props : list (string * value)) (t : string) (w : world) :
  candidate (VObj props) ->
  get (VObj props) "text" = VStr t ->
  trim t <> "" ->
  (exists e, In e (quotes w) /\ get e "text" = VStr (trim t)) ->
  confirm h "A quote with the same text already exists. Add anyway?" = false ->
  addQuote h (VObj props) w = (Normal, w).
Proof.
  intros Hc Ht Hne (e & He & Ee) Hno. rewrite (addQuote_candidate h props w Hc), Ht.
  assert (Et : (t =? "") || (trim t =? "") = false).
  { apply orb_false_intro; apply String.eqb_neq; [|exact Hne].
    intros ->. now apply Hne. }
  rewrite Et. cbv zeta. rewrite Hno.
  assert (Ed : existsb (fun q => strict_equal (get q "text") (VStr (trim t))) (quotes w)
               = true).
  { apply existsb_exists. exists e. split; [exact He|]. now apply strict_equal_str. }
  now rewrite Ed.
Qed.

Lemma add_declined_duplicate_witness :
  addQuote (user false) (mkQuote " a " "" "") one_quote = (Normal, one_quote).
Proof.
  assert (Hc : candidate (mkQuote " a " "" "")).
  { split; [now eexists|]. split; right; now eexists. }
  apply (add_declined_duplicate (user false) _ " a " one_quote Hc eq_refl).
  - discriminate.
  - exists (mkQuote "a" "" ""). split; [now left|reflexivity].
  - reflexivity.
Defined.

(** Confirmed, [clearAll] empties the collection, and the storage, when it
    accepts the write, holds the empty collection. *)
Theorem clearAll_empties_and_persists (h : host) (w : world) :
  confirm h "This will DELETE ALL quotes. Proceed?" = true ->
  quotes (snd (clearAllQuotes h w)) = [] /\
  (quota h (put_quotes (JSON_stringify (VArr [])) (localStorage w)) = true ->
   dq_quotes_v1 (localStorage (snd (clearAllQuotes h w)))
   = Some (JSON_stringify (VArr []))).
Proof.
  intros Hy. unfold clearAllQuotes. rewrite Hy. cbn [negb].
  rewrite quotes_populateCategories, stored_quotes_populateCategories.
  cbn [quotes localStorage with_quoteDisplay]. rewrite quotes_saveQuotes.
  split; [reflexivity|]. intros Hq. now rewrite saveQuotes_accepted.
Qed.

Lemma clearAll_empties_and_persists_witness :
  confirm (user true) "This will DELETE ALL quotes. Proceed?" = true /\
  quotes (snd (clearAllQuotes (user true) one_quote)) = [] /\
  dq_quotes_v1 (localStorage (snd (clearAllQuotes (user true) one_quote)))
  = Some (Document (VArr [])).
Proof.
  split; [reflexivity|].
  destruct (clearAll_empties_and_persists (user true) one_quote eq_refl) as [Hq Hs].
  split; [exact Hq|exact (Hs eq_refl)].
Defined.

(** Declined, [clearAll] changes nothing. *)
Theorem clearAll_declined (h : host) (w : world) :
  confirm h "This will DELETE ALL quotes. Proceed?" = false ->
  clearAllQuotes h w = (Normal, w).
Proof. intros Hno. unfold clearAllQuotes. now rewrite Hno. Qed.

Lemma clearAll_declined_witness :
  clearAllQuotes (user false) one_quote = (Normal, one_quote).
Proof. exact (clearAll_declined (user false) one_quote eq_refl). Defined.

(** A file whose root is not an array, or that holds no usable item, only
    makes the import tell the user: the collection and the storage stay
    as they are. *)
Theorem import_rejects_file (h : host) (v : value) (w : world) :
  (forall items, v = VArr items -> valid_of items = []) ->
  quotes (importFromJsonFile h (Some (Document v)) w) = quotes w /\
  localStorage (importFromJsonFile h (Some (Document v)) w) = localStorage w /\
  exists msg, alerts (importFromJsonFile h (Some (Document v)) w) = alerts w ++ [msg].
Proof.
  intros Hv. destruct v as [| | | | |items|];
    try (repeat split; eexists; reflexivity).
  rewrite import_array, (Hv items eq_refl).
  repeat split. eexists. reflexivity.
Qed.

Lemma import_rejects_file_witness :
  quotes (importFromJsonFile (user true)
            (Some (Document (VArr [VObj [("text", VStr "  ")]; VNum 3]))) one_quote)
  = quotes one_quote /\
  alerts (importFromJsonFile (user true) (Some (Document (VObj []))) one_quote)
  = ["Invalid file format: root element must be an array of quotes."].
Proof.
  split.
  - apply (import_rejects_file (user true) (VArr [VObj [("text", VStr "  ")]; VNum 3])).
    now intros items [= <-].
  - reflexivity.
Defined.

(** Apart from [clearAll], no event removes or changes an element: the
    collection only grows at its end, by Quotes. *)
Theorem events_only_append (h : host) (e : event) (w : world) :
  e <> ClearAll ->
  exists added, Forall well_formed added /\ quotes (handle h e w) = quotes w ++ added.
Proof.
  intros He. unfold handle.
  assert (Hsame : forall w', quotes w' = quotes w ->
            exists added, Forall well_formed added /\ quotes w' = quotes w ++ added).
  { intros w' E. exists []. split; [constructor|]. now rewrite app_nil_r. }
  destruct e as [arg|file| |v| |]; cbn [perform snd].
  - destruct (addQuote_quotes h arg w) as [E | (q & Hq & E)]; [now apply Hsame|].
    exists [q]. split; [constructor; [exact Hq|constructor]|exact E].
  - destruct (importFromJsonFile_quotes h file w) as [E | (added & Ha & E)];
      [now apply Hsame|].
    now exists added.
  - contradiction.
  - apply Hsame. destruct (categoryFilter w) as [sel|]; [|reflexivity].
    destruct (existsb _ _); [|reflexivity]. now rewrite quotes_filterQuotes.
  - apply Hsame. apply quotes_showRandomQuote.
  - now apply Hsame.
Qed.

Lemma events_only_append_witness :
  ImportFile (Some (Document (VArr twice_file))) <> ClearAll /\
  exists added,
    Forall well_formed added /\
    quotes (handle (user true) (ImportFile (Some (Document (VArr twice_file)))) one_quote)
    = quotes one_quote ++ added.
Proof.
  assert (H : ImportFile (Some (Document (VArr twice_file))) <> ClearAll) by discriminate.
  split; [exact H|].
  exact (events_only_append (user true) _ one_quote H).
Defined.

(** ** The stored collection *)

Lemma stored_after_saveQuotes (h : host) (w : world) :
  dq_quotes_v1 (localStorage (saveQuotes h w)) = dq_quotes_v1 (localStorage w) \/
  dq_quotes_v1 (localStorage (saveQuotes h w)) = Some (JSON_stringify (VArr (quotes w))).
Proof.
  unfold saveQuotes, setItem. destruct (quota h _); [now right|now left].
Qed.

Lemma stored_after_addQuote (h : host) (arg : value) (w : world) :
  dq_quotes_v1 (localStorage (snd (addQuote h arg w))) = dq_quotes_v1 (localStorage w) \/
  dq_quotes_v1 (localStorage (snd (addQuote h arg w)))
  = Some (JSON_stringify (VArr (quotes (snd (addQuote h arg w))))).
Proof.
  unfold addQuote.
  destruct arg; try (now left);
    (destruct (negb (truthy _) || _ || _); [now left|]);
    (destruct (method_trim _) as [t|]; [|now left]);
    (destruct (trim_or_empty (default_empty (get _ "author"))) as [a|]; [|now left]);
    (destruct (trim_or_empty (default_empty (get _ "category"))) as [c|]; [|now left]);
    (destruct (_ && negb _); [now left|]);
    rewrite stored_quotes_populateCategories, quotes_populateCategories;
    cbn [quotes localStorage alert with_last_quote with_quoteDisplay];
    rewrite quotes_saveQuotes;
    exact (stored_after_saveQuotes h (push [mkQuote t a c] w)).
Qed.

Lemma stored_after_import (h : host) (file : option text) (w : world) :
  dq_quotes_v1 (localStorage (importFromJsonFile h file w)) = dq_quotes_v1 (localStorage w) \/
  dq_quotes_v1 (localStorage (importFromJsonFile h file w))
  = Some (JSON_stringify (VArr (quotes (importFromJsonFile h file w)))).
Proof.
  assert (F : forall n w',
            localStorage w' = localStorage w ->
            dq_quotes_v1 (localStorage (import_finish h n w')) = dq_quotes_v1 (localStorage w) \/
            dq_quotes_v1 (localStorage (import_finish h n w'))
            = Some (JSON_stringify (VArr (quotes (import_finish h n w'))))).
  { intros n w' E. rewrite quotes_import_finish. unfold import_finish.
    cbn [localStorage alert console_error]. rewrite <- E.
    apply stored_after_saveQuotes. }
  destruct file as [[| |v]|]; try (now left).
  destruct v as [| | | | |items|]; try (now left).
  rewrite import_array.
  destruct (valid_of items); [now left|].
  destruct (filter _ _).
  - destruct (confirm h _); [|now left]. now apply F.
  - now apply F.
Qed.

Lemma stored_after_clearAll (h : host) (w : world) :
  dq_quotes_v1 (localStorage (snd (clearAllQuotes h w))) = dq_quotes_v1 (localStorage w) \/
  dq_quotes_v1 (localStorage (snd (clearAllQuotes h w)))
  = Some (JSON_stringify (VArr (quotes (snd (clearAllQuotes h w))))).
Proof.
  unfold clearAllQuotes. destruct (negb _); [now left|].
  rewrite stored_quotes_populateCategories, quotes_populateCategories.
  cbn [quotes localStorage with_quoteDisplay].
  rewrite quotes_saveQuotes. exact (stored_after_saveQuotes h (with_quotes [] w)).
Qed.

(** After an event the storage holds the collection it held before, or
    the collection the event left in memory. *)
Lemma stored_after_handle (h : host) (e : event) (w : world) :
  dq_quotes_v1 (localStorage (handle h e w)) = dq_quotes_v1 (localStorage w) \/
  dq_quotes_v1 (localStorage (handle h e w))
  = Some (JSON_stringify (VArr (quotes (handle h e w)))).
Proof.
  unfold handle. destruct e as [arg|file| |v| |]; cbn [perform snd].
  - apply stored_after_addQuote.
  - apply stored_after_import.
  - apply stored_after_clearAll.
  - left. destruct (categoryFilter w) as [sel|]; [|reflexivity].
    destruct (existsb _ _); [|reflexivity]. now rewrite stored_quotes_filterQuotes.
  - left. now rewrite localStorage_showRandomQuote.
  - now left.
Qed.

Lemma stored_after_init (h : host) (w : world) :
  dq_quotes_v1 (localStorage (snd (init h w))) = dq_quotes_v1 (localStorage w).
Proof.
  unfold init.
  pose proof (stored_quotes_populateCategories h w) as Hp.
  destruct (populateCategories h w) as [[|e] w1]; cbn [snd] in Hp |- *; [|exact Hp].
  destruct (dq_last_quote w1) as [[| |v]|]; cbn [snd JSON_parse];
    rewrite ?localStorage_showRandomQuote; try exact Hp.
  destruct (last_markup v); cbn [snd]; rewrite ?localStorage_showRandomQuote; exact Hp.
Qed.

Lemma stored_after_start (w : world) : localStorage (start w) = localStorage w.
Proof.
  unfold start, loadQuotes.
  destruct (dq_quotes_v1 (localStorage w)) as [[| |v]|]; try reflexivity.
  destruct v; reflexivity.
Qed.

(** The JSON of a collection of clean texts holds clean texts. *)
Lemma stringify_clean (qs items : list value) :
  Forall has_clean_text qs ->
  Some (JSON_stringify (VArr qs)) = Some (Document (VArr items)) ->
  Forall (fun q => has_string_text q = true -> has_clean_text q) items.
Proof.
  intros Hqs [= <-]. induction Hqs as [|q qs Hq _ IH]; constructor; [|exact IH].
  intros _. destruct Hq as (t & Ht & Hne & Htr).
  destruct q as [| | | | | |props]; try discriminate Ht.
  exists t. split; [|now split]. now apply get_serializable.
Qed.

(** Once the stored collection holds no empty or untrimmed text, neither
    the stored collection nor the collection in memory ever does: the
    invariant of the collection survives reloads of the page. *)
Theorem storage_stays_clean (w0 w : world) :
  run w0 w ->
  stored_clean w0 ->
  stored_clean w /\ Forall has_clean_text (quotes w).
Proof.
  intros Hrun Hs. induction Hrun as [h | h e w Hrun [IHs IHq]].
  - split.
    + intros items E. rewrite stored_after_init, stored_after_start in E.
      now apply Hs.
    + rewrite quotes_init, quotes_start. now apply loadQuotes_clean.
  - assert (Hq : Forall has_clean_text (quotes (handle h e w)))
      by (apply handle_preserves; [exact well_formed_clean|exact IHq]).
    split; [|exact Hq].
    intros items E. destruct (stored_after_handle h e w) as [Same | New].
    + rewrite Same in E. now apply IHs.
    + rewrite New in E. now apply stringify_clean with (quotes (handle h e w)).
Qed.

Lemma storage_stays_clean_witness :
  run fresh (handle (user true) (AddQuote (mkQuote " Hello " "X" "Y"))
               (snd (init (user true) (start fresh)))) /\
  stored_clean (handle (user true) (AddQuote (mkQuote " Hello " "X" "Y"))
                  (snd (init (user true) (start fresh)))).
Proof.
  assert (Hs : stored_clean fresh) by (intros items E; discriminate E).
  split; [apply run_event, run_init|].
  exact (proj1 (storage_stays_clean fresh _
                  (run_event fresh _ _ _ (run_init fresh (user true))) Hs)).
Defined.

(** ** A random quote *)


(** ** Saving, then loading *)

Lemma filter_all_in {A : Type} (K : A -> bool) (l : list A) :
  (forall x, In x l -> K x = true) -> filter K l = l.
Proof.
  induction l as [|x l IH]; intros H; [reflexivity|]. cbn [filter].
  rewrite (H x (or_introl eq_refl)), IH; [reflexivity|].
  intros y Hy. apply H. now right.
Qed.

Lemma value_induction (P : value -> Prop) :
  P VUndefined -> P VNull -> (forall b, P (VBool b)) -> (forall n, P (VNum n)) ->
  (forall s, P (VStr s)) ->
  (forall items, Forall P items -> P (VArr items)) ->
  (forall props, Forall (fun p => P (snd p)) props -> P (VObj props)) ->
  forall v, P v.
Proof.
  intros Hu Hn Hb Hz Hs Ha Ho.
  fix IH 1.
  intros [| |b|n|s|items|props];
    [exact Hu|exact Hn|apply Hb|apply Hz|apply Hs| |].
  - apply Ha. induction items as [|x l IHl]; constructor; [apply IH|exact IHl].
  - apply Ho. induction props as [|[k x] l IHl]; constructor; [apply IH|exact IHl].
Qed.

(** [JSON.stringify] writes a JSON value as it is. *)
Lemma serializable_json (v : value) : is_json v = true -> serializable v = v.
Proof.
  induction v as [| |b|n|s|items IH|props IH] using value_induction;
    intros H; try reflexivity; try discriminate H.
  - cbn [serializable]. f_equal. cbn [is_json] in H.
    induction IH as [|x items Hx _ IHi]; [reflexivity|].
    cbn [forallb map] in *. apply andb_prop in H as [Jx Ji].
    rewrite (IHi Ji). f_equal.
    destruct x; try reflexivity; try discriminate Jx; now apply Hx.
  - cbn [serializable]. f_equal. cbn [is_json] in H.
    induction IH as [|[k x] props Hx _ IHp]; [reflexivity|].
    cbn [forallb flat_map snd] in *. apply andb_prop in H as [Jx Jp].
    rewrite (IHp Jp).
    destruct x; try discriminate Jx; cbn [app]; f_equal; f_equal; now apply Hx.
Qed.

Lemma serializable_elements (qs : list value) :
  (forall q, In q qs -> is_json q = true) ->
  map (fun x => match x with VUndefined => VNull | _ => serializable x end) qs = qs.
Proof.
  induction qs as [|q qs IH]; intros H; [reflexivity|].
  cbn [map]. rewrite IH by (intros x Hx; apply H; now right).
  f_equal. pose proof (H q (or_introl eq_refl)) as Hq.
  destruct q; try discriminate Hq; now apply serializable_json.
Qed.

Lemma text_is_string_test (q : value) :
  text_is_string q -> has_string_text q = true.
Proof.
  intros [t Ht]. unfold has_string_text. rewrite Ht.
  destruct q; try discriminate Ht. reflexivity.
Qed.

(** What [saveQuotes] stores, [loadQuotes] gives back: a page loaded on
    the storage that an accepted save left starts with the collection
    that was saved, element for element, when its elements are JSON
    values with a string [text]. *)
Theorem save_then_load (h : host) (w w' : world) :
  quota h (put_quotes (JSON_stringify (VArr (quotes w))) (localStorage w)) = true ->
  (forall q, In q (quotes w) -> is_json q = true /\ text_is_string q) ->
  loaded_after (saveQuotes h w) w' ->
  quotes (start w') = quotes w.
Proof.
  intros Hq Hel [Hls _]. rewrite quotes_start. unfold loadQuotes.
  rewrite Hls, (saveQuotes_accepted h w Hq).
  cbn [localStorage with_localStorage put_quotes dq_quotes_v1 JSON_stringify
       JSON_parse serializable].
  rewrite serializable_elements by (intros q Hin; now apply Hel).
  cbn [fst]. apply filter_all_in.
  intros q Hin. now apply text_is_string_test, Hel.
Qed.

Lemma save_then_load_witness :
  quotes (start (saveQuotes (user true) one_quote)) = quotes one_quote.
Proof.
  apply (save_then_load (user true) one_quote (saveQuotes (user true) one_quote)).
  - reflexivity.
  - intros q [<- | []]. split; [reflexivity|]. now exists "a".
  - split; reflexivity.
Defined.

(** ** Importing one's own export *)

(** What the importer makes of the export of a collection of clean texts:
    one item per element, with the text of the element. *)
Lemma own_export_texts (qs : list value) :
  Forall has_clean_text qs ->
  map (fun q => get q "text")
      (valid_of (map (fun x => match x with
                               | VUndefined => VNull
                               | _ => serializable x
                               end) qs))
  = map (fun q => get q "text") qs.
Proof.
  intros H. rewrite valid_of_map_filter.
  induction H as [|q qs (t & Ht & Hne & Htr) _ IH]; [reflexivity|].
  destruct q as [| | | | | |props]; try discriminate Ht.
  pose proof (get_serializable props _ _ Ht) as Ht'.
  assert (U : usable (serializable (VObj props)) = true).
  { apply usable_spec. exists t. split; [exact Ht'|]. now rewrite Htr. }
  cbn [map filter]. rewrite U. cbn [map]. rewrite IH. f_equal.
  unfold normalized. rewrite Ht', Ht. cbn [method_trim get mkQuote find fst snd].
  cbn. now rewrite Htr.
Qed.

Lemma unseen_by_text (qs : list value) (q : value) :
  In (get q "text") (map (fun e => get e "text") qs) ->
  text_is_string q -> unseen qs q = false.
Proof.
  intros Hin [t Ht]. unfold unseen. apply negb_false_iff, existsb_exists.
  apply in_map_iff in Hin as (e & Ee & He). exists e. split; [exact He|].
  rewrite Ee, Ht. now apply strict_equal_str.
Qed.

(** A collection of clean texts finds nothing new in its own export: the
    import of the exported file changes neither the collection nor the
    storage when the user declines to append duplicates, and appends one
    item per element, with the same texts in the same order, when the
    user confirms. *)
Theorem own_export_has_nothing_new (h : host) (w : world) :
  Forall has_clean_text (quotes w) ->
  (confirm h "All imported quotes already exist. Append duplicates?" = false ->
   quotes (importFromJsonFile h (Some (snd (exportToJson w))) w) = quotes w /\
   localStorage (importFromJsonFile h (Some (snd (exportToJson w))) w) = localStorage w) /\
  (confirm h "All imported quotes already exist. Append duplicates?" = true ->
   exists copy,
     quotes (importFromJsonFile h (Some (snd (exportToJson w))) w) = quotes w ++ copy /\
     map (fun q => get q "text") copy = map (fun q => get q "text") (quotes w)).
Proof.
  intros Hc. unfold exportToJson, JSON_stringify. cbn [snd].
  change (serializable (VArr (quotes w)))
    with (VArr (map (fun x => match x with
                              | VUndefined => VNull
                              | _ => serializable x
                              end) (quotes w))).
  rewrite import_array.
  pose proof (own_export_texts (quotes w) Hc) as Ht.
  set (valid := valid_of _) in *.
  assert (Hnone : filter (unseen (quotes w)) valid = []).
  { apply filter_none. intros q Hq. apply unseen_by_text.
    - rewrite <- Ht. exact (in_map (fun x => get x "text") valid q Hq).
    - exact (valid_of_strings _ q Hq). }
  rewrite Hnone.
  destruct valid as [|v valid'] eqn:Ev.
  - split; [now split|]. intros _. exists []. rewrite app_nil_r.
    split; [reflexivity|exact Ht].
  - rewrite <- Ev in *. split; intros Hans; rewrite Hans.
    + now split.
    + exists valid. rewrite quotes_import_finish. split; [reflexivity|exact Ht].
Qed.

Lemma own_export_has_nothing_new_witness :
  Forall has_clean_text (quotes (page DEFAULT_QUOTES empty_storage)) /\
  quotes (importFromJsonFile (user false)
            (Some (snd (exportToJson (page DEFAULT_QUOTES empty_storage))))
            (page DEFAULT_QUOTES empty_storage))
  = DEFAULT_QUOTES.
Proof.
  assert (H : Forall has_clean_text (quotes (page DEFAULT_QUOTES empty_storage))).
  { eapply Forall_impl; [|exact DEFAULT_QUOTES_well_formed]. exact well_formed_clean. }
  split; [exact H|].
  exact (proj1 (proj1 (own_export_has_nothing_new (user false)
                         (page DEFAULT_QUOTES empty_storage) H) eq_refl)).
Defined.

(** ** What the page shows *)

Lemma populateCategories_empty (h : host) (w : world) :
  quotes w = [] ->
  populateCategories h w =
  (Normal,
   match categoryFilter w with
   | Some _ => with_categoryFilter (Some {| options := ["all"]; selected := "all" |}) w
   | None => w
   end).
Proof.
  intros E. unfold populateCategories. rewrite E.
  destruct (categoryFilter w); [|reflexivity].
  cbn [categories_of map filter new_Set fold_left existsb andb
       localStorage with_categoryFilter].
  destruct (dq_selectedCategory (localStorage w)); [|reflexivity].
  now rewrite andb_false_r.
Qed.

(** [clearAll] leaves the last quote of the session where it is: a page
    loaded after the collection was cleared, and the empty collection
    stored, starts with no quote and still shows the quote that was last
    shown; when the markup cannot be built from what the session holds (it
    holds [null], or a value with a hole that has no string), the failure
    is logged and the page shows the text of the empty collection. *)
Theorem cleared_page_shows_last_quote (h h' : host) (w w' : world) (last : value) :
  confirm h "This will DELETE ALL quotes. Proceed?" = true ->
  quota h (put_quotes (JSON_stringify (VArr [])) (localStorage w)) = true ->
  dq_last_quote w = Some (Document last) ->
  loaded_after (snd (clearAllQuotes h w)) w' ->
  quotes (snd (init h' (start w'))) = [] /\
  fst (init h' (start w')) = Normal /\
  (last <> VNull -> last <> VUndefined -> printable last ->
   quoteDisplay (snd (init h' (start w'))) = QuoteMarkup last) /\
  (last = VNull \/ last = VUndefined \/ ~ printable last ->
   quoteDisplay (snd (init h' (start w')))
   = TextContent "No quotes available. Add some!" /\
   console (snd (init h' (start w')))
   = console (start w') ++ ["Could not read sessionStorage last quote:"]).
Proof.
  intros Hy Hq Hlast [Hls Hss].
  assert (Hcl : clearAllQuotes h w =
                populateCategories h
                  (with_quoteDisplay (TextContent "All quotes deleted.")
                     (with_localStorage
                        (put_quotes (JSON_stringify (VArr [])) (localStorage w))
                        (with_quotes [] w)))).
  { unfold clearAllQuotes. rewrite Hy. cbn [negb].
    now rewrite (saveQuotes_accepted h (with_quotes [] w) Hq). }
  rewrite Hcl, populateCategories_empty in Hls, Hss by reflexivity.
  cbn [snd] in Hls, Hss.
  assert (Hls' : dq_quotes_v1 (localStorage w') = Some (Document (VArr []))).
  { rewrite Hls. now destruct (categoryFilter _). }
  assert (Hss' : dq_last_quote w' = Some (Document last)).
  { rewrite Hss, <- Hlast. now destruct (categoryFilter _). }
  assert (Hstart : quotes (start w') = []).
  { rewrite quotes_start. unfold loadQuotes. now rewrite Hls'. }
  assert (Hs2 : dq_last_quote (start w') = Some (Document last)).
  { unfold start, loadQuotes. now rewrite Hls'. }
  assert (Hinit :
            fst (init h' (start w')) = Normal /\
            quoteDisplay (snd (init h' (start w')))
            = match last_markup last with
              | Some shown => shown
              | None => TextContent "No quotes available. Add some!"
              end /\
            console (snd (init h' (start w')))
            = match last_markup last with
              | Some _ => console (start w')
              | None => console (start w') ++ ["Could not read sessionStorage last quote:"]
              end).
  { unfold init. rewrite (populateCategories_empty h' (start w') Hstart).
    unfold showRandomQuote.
    destruct (categoryFilter (start w'));
      cbn [dq_last_quote with_categoryFilter quotes console_error];
      rewrite Hs2, Hstart; cbn [JSON_parse];
      destruct (last_markup last); now repeat split. }
  destruct Hinit as (Hn & Hd & Hc).
  split; [now rewrite quotes_init|]. split; [exact Hn|]. split.
  - intros Hnn Hnu Hp. rewrite Hd.
    replace (last_markup last) with (markup last)
      by (destruct last; try reflexivity; contradiction).
    now rewrite Hp.
  - intros Hbad.
    assert (E : last_markup last = None).
    { destruct Hbad as [-> | [-> | Hnp]]; try reflexivity.
      destruct (markup_cases last) as [M | M]; [now elim Hnp|].
      now destruct last. }
    rewrite Hd, Hc, E. now split.
Qed.

Lemma cleared_page_shows_last_quote_witness :
  quotes (snd (init (user true)
                 (start (snd (clearAllQuotes (user true)
                                (snd (showRandomQuote (user true) one_quote))))))) = [] /\
  quoteDisplay (snd (init (user true)
                       (start (snd (clearAllQuotes (user true)
                                      (snd (showRandomQuote (user true) one_quote)))))))
  = QuoteMarkup (mkQuote "a" "" "").
Proof.
  destruct (cleared_page_shows_last_quote (user true) (user true)
              (snd (showRandomQuote (user true) one_quote))
              (snd (clearAllQuotes (user true)
                      (snd (showRandomQuote (user true) one_quote))))
              (mkQuote "a" "" "") eq_refl eq_refl eq_refl (conj eq_refl eq_refl))
    as (Hq & _ & Hd & _).
  split; [exact Hq|]. apply Hd; [discriminate|discriminate|reflexivity].
Defined.





(** With the category [Wisdom] stored, adding a quote of that category
    shows the first quote of the category, not the new one. *)
Example add_may_show_another_quote :
  quoteDisplay (snd (addQuote (user true) (mkQuote "Hello" "X" "Wisdom")
                       (remembering "Wisdom")))
  = QuoteMarkup (nth 1 DEFAULT_QUOTES VUndefined).
Proof. reflexivity. Qed.

(** ** The options of the filter *)

Lemma NoDup_snoc {A : Type} (l : list A) (x : A) :
  NoDup l -> ~ In x l -> NoDup (l ++ [x]).
Proof.
  induction l as [|y l IH]; intros Hl Hx; cbn [app].
  - constructor; [intros []|constructor].
  - inversion Hl as [|? ? Hy Hl']; subst. constructor.
    + intros Hin. apply in_app_or in Hin as [Hin | [-> | []]]; [now apply Hy|].
      apply Hx. now left.
    + apply IH; [exact Hl'|]. intros Hin. apply Hx. now right.
Qed.

Lemma Set_of_strings_NoDup (l acc : list value) :
  (forall x, In x l -> exists s, x = VStr s) ->
  NoDup acc -> NoDup (fold_left Set_add l acc).
Proof.
  revert acc. induction l as [|a l IH]; intros acc Hl Hacc; [exact Hacc|].
  cbn [fold_left]. apply IH; [intros x Hx; apply Hl; now right|].
  unfold Set_add. destruct (Set_has acc a) eqn:Ha; [exact Hacc|].
  apply NoDup_snoc; [exact Hacc|].
  destruct (Hl a (or_introl eq_refl)) as [s ->].
  intros Hin. apply Set_has_str in Hin. congruence.
Qed.

Lemma categories_are_strings (qs : list value) (x : value) :
  (forall q, In q qs -> optional_string (get q "category")) ->
  In x (filter truthy (map (fun q => get q "category") qs)) ->
  exists s, x = VStr s.
Proof.
  intros Hqs Hx. apply filter_In in Hx as [Hx Tx].
  apply in_map_iff in Hx as (q & <- & Hq).
  destruct (Hqs q Hq) as [E | [s E]]; rewrite E in *; [discriminate Tx|now exists s].
Qed.

Lemma strings_labels (l : list value) :
  (forall x, In x l -> exists s, x = VStr s) ->
  exists strs,
    l = map VStr strs /\ Forall2 (fun c s => ToString c = Some s) l strs.
Proof.
  induction l as [|x l IH]; intros H; [exists []; split; [reflexivity|constructor]|].
  destruct IH as (strs & E & F); [intros y Hy; apply H; now right|].
  destruct (H x (or_introl eq_refl)) as [s ->].
  exists (s :: strs). split; [cbn [map]; now rewrite <- E|now constructor].
Qed.

(** The options of the filter after [populateCategories], and its value,
    when every category has a string. *)
Lemma populateCategories_filter (h : host) (w : world) (sel0 : select) (strs : list string) :
  categoryFilter w = Some sel0 ->
  Forall2 (fun c s => ToString c = Some s) (categories_of (quotes w)) strs ->
  categoryFilter (snd (populateCategories h w))
  = Some {| options := "all" :: strs;
            selected :=
              match dq_selectedCategory (localStorage w) with
              | Some s =>
                  if truthy (VStr s)
                     && existsb (SameValueZero (VStr s)) (categories_of (quotes w))
                  then s else "all"
              | None => "all"
              end |}.
Proof.
  intros Hsel F. rewrite (populateCategories_built h w sel0 strs Hsel F).
  destruct (dq_selectedCategory (localStorage w)) as [saved|]; [|reflexivity].
  destruct (truthy (VStr saved) && _); [|reflexivity].
  now rewrite categoryFilter_filterQuotes.
Qed.

(** When the categories of the quotes are strings (or left out), the
    filter offers ["all"] and then every non-empty category of the
    collection, each exactly once. *)
Theorem filter_offers_each_category_once (h : host) (w : world) (sel0 : select) :
  categoryFilter w = Some sel0 ->
  (forall q, In q (quotes w) -> optional_string (get q "category")) ->
  exists sel cats,
    categoryFilter (snd (populateCategories h w)) = Some sel /\
    options sel = "all" :: cats /\
    NoDup cats /\
    forall c,
      In c cats <-> c <> "" /\ exists q, In q (quotes w) /\ get q "category" = VStr c.
Proof.
  intros Hsel Hstr.
  assert (Hs : forall x, In x (categories_of (quotes w)) -> exists s, x = VStr s).
  { intros x Hx. apply Set_members in Hx. now apply categories_are_strings with (quotes w). }
  assert (Hnd : NoDup (categories_of (quotes w))).
  { apply Set_of_strings_NoDup; [|constructor].
    intros x Hx. now apply categories_are_strings with (quotes w). }
  destruct (strings_labels _ Hs) as (strs & E & F).
  rewrite (populateCategories_filter h w sel0 strs Hsel F).
  eexists. exists strs.
  split; [reflexivity|]. split; [reflexivity|]. split.
  - apply (NoDup_map_inv VStr). now rewrite <- E.
  - intros c. rewrite <- categories_of_member, E. split.
    + apply in_map.
    + intros Hc. apply in_map_iff in Hc as (c' & [= ->] & Hc). exact Hc.
Qed.

Lemma filter_offers_each_category_once_witness :
  exists sel cats,
    categoryFilter (snd (populateCategories (user true)
                           (page (DEFAULT_QUOTES ++ DEFAULT_QUOTES) empty_storage)))
    = Some sel /\
    options sel = "all" :: cats /\
    NoDup cats /\
    forall c,
      In c cats <->
      c <> "" /\
      exists q,
        In q (quotes (page (DEFAULT_QUOTES ++ DEFAULT_QUOTES) empty_storage)) /\
        get q "category" = VStr c.
Proof.
  apply (filter_offers_each_category_once (user true)
           (page (DEFAULT_QUOTES ++ DEFAULT_QUOTES) empty_storage)
           {| options := ["all"]; selected := "all" |} eq_refl).
  intros q Hq. right.
  cbn in Hq. repeat (destruct Hq as [<- | Hq]; [now eexists|]). destruct Hq.
Defined.

(** The category that [filterQuotes] stores is the one that
    [populateCategories] restores: when the filter stands on ["all"] or on
    a category of the collection and its value is stored, the rebuilt
    filter stands on the same value, provided every category of the
    collection has a string to label its option with; when one has none,
    the rebuilt filter stands on ["all"]. *)
Theorem selection_survives_rebuild (h h' : host) (w : world) (sel : select) :
  categoryFilter w = Some sel ->
  quota h (put_selectedCategory (selected sel) (localStorage w)) = true ->
  selected sel = "all" \/ In (VStr (selected sel)) (categories_of (quotes w)) ->
  (Forall convertible (categories_of (quotes w)) ->
   option_map selected
     (categoryFilter (snd (populateCategories h' (snd (filterQuotes h w)))))
   = Some (selected sel)) /\
  (~ Forall convertible (categories_of (quotes w)) ->
   option_map selected
     (categoryFilter (snd (populateCategories h' (snd (filterQuotes h w)))))
   = Some "all").
Proof.
  intros Hsel Hq Hc.
  assert (Hf : categoryFilter (snd (filterQuotes h w)) = Some sel)
    by now rewrite categoryFilter_filterQuotes.
  split.
  - intros Hall.
    destruct (labels_cases (categories_of (quotes w))) as [[strs F] | Hn];
      [|now elim Hn].
    rewrite (populateCategories_filter h' _ sel strs Hf)
      by (now rewrite quotes_filterQuotes).
    rewrite quotes_filterQuotes.
    assert (Hs : dq_selectedCategory (localStorage (snd (filterQuotes h w)))
                 = Some (selected sel)).
    { rewrite (filterQuotes_stored h w sel Hsel Hq). cbv zeta.
      destruct (filtered _ _); [reflexivity|]. now destruct (markup _). }
    rewrite Hs. cbn [option_map selected]. f_equal.
    destruct (truthy (VStr (selected sel)) && _) eqn:B; [reflexivity|].
    destruct Hc as [E | Hin]; [now rewrite E|].
    assert (B' : truthy (VStr (selected sel))
                 && existsb (SameValueZero (VStr (selected sel)))
                      (categories_of (quotes w)) = true).
    { apply andb_true_intro. split; [|now apply includes_member].
      apply categories_of_member in Hin as [Hne _]. cbn [truthy].
      now apply negb_true_iff, String.eqb_neq. }
    congruence.
  - intros Hn. rewrite <- (quotes_filterQuotes h w) in Hn.
    rewrite (populateCategories_fails h' _ sel Hf Hn). cbn [snd categoryFilter
      with_categoryFilter option_map]. f_equal.
    destruct (append_options_cases (categories_of (quotes (snd (filterQuotes h w))))
                {| options := ["all"]; selected := "all" |})
      as [(strs & F & ->) | (_ & done & ->)]; reflexivity.
Qed.

Lemma selection_survives_rebuild_witness :
  option_map selected
    (categoryFilter
       (snd (populateCategories (user true)
               (snd (filterQuotes (user true) (filtering "Wisdom" DEFAULT_QUOTES))))))
  = Some "Wisdom".
Proof.
  apply (selection_survives_rebuild (user true) (user true)
           (filtering "Wisdom" DEFAULT_QUOTES)
           {| options := ["all"; "Wisdom"]; selected := "Wisdom" |} eq_refl eq_refl).
  - right. cbn. tauto.
  - repeat constructor; discriminate.
Defined.

(** ** Looking at quotes *)

Lemma alerts_of_filterQuotes (h : host) (w : world) :
  alerts (snd (filterQuotes h w)) = alerts w.
Proof. by_cases_of_filterQuotes w. Qed.

(** Choosing a category, asking for a new quote and exporting leave the
    collection, the stored collection and the alerts as they are. *)
Theorem viewing_changes_no_quote (h : host) (e : event) (w : world) :
  viewing e ->
  quotes (handle h e w) = quotes w /\
  dq_quotes_v1 (localStorage (handle h e w)) = dq_quotes_v1 (localStorage w) /\
  alerts (handle h e w) = alerts w.
Proof.
  intros Hv. unfold handle.
  destruct e as [arg|file| |v| |]; try contradiction; cbn [perform snd].
  - destruct (categoryFilter w) as [sel|]; [|now repeat split].
    destruct (existsb _ _); [|now repeat split].
    now rewrite quotes_filterQuotes, stored_quotes_filterQuotes, alerts_of_filterQuotes.
  - now rewrite quotes_showRandomQuote, localStorage_showRandomQuote,
      alerts_showRandomQuote.
  - now repeat split.
Qed.

Lemma viewing_changes_no_quote_witness :
  viewing (ChangeFilter "Wisdom") /\
  quotes (handle (user true) (ChangeFilter "Wisdom") (filtering "Wisdom" DEFAULT_QUOTES))
  = DEFAULT_QUOTES.
Proof.
  split; [exact I|].
  exact (proj1 (viewing_changes_no_quote (user true) (ChangeFilter "Wisdom")
                  (filtering "Wisdom" DEFAULT_QUOTES) I)).
Defined.

(** ** The importer's normal form *)

Lemma normalized_fixed (item : value) :
  usable item = true ->
  usable (normalized item) = true /\ normalized (normalized item) = normalized item.
Proof.
  intros H. apply usable_spec in H as (t & Ht & Hne).
  unfold normalized at 1 3 4. rewrite Ht. cbn [method_trim].
  set (a := trimmed_string (get item "author")).
  set (c := trimmed_string (get item "category")).
  split.
  - apply usable_spec. exists (trim t). split; [reflexivity|].
    now rewrite trim_idempotent.
  - unfold normalized. cbn [get mkQuote find fst snd String.eqb Ascii.eqb Bool.eqb
                            method_trim].
    cbn. rewrite trim_idempotent.
    rewrite !trimmed_string_fixed by apply trimmed_string_trimmed. reflexivity.
Qed.

(** The filter of the import keeps what it has produced: filtering a
    filtered batch again gives the same batch. *)
Theorem valid_of_idempotent (items : list value) :
  valid_of (valid_of items) = valid_of items.
Proof.
  rewrite !valid_of_map_filter.
  induction items as [|i items IH]; [reflexivity|]. cbn [filter].
  destruct (usable i) eqn:U; [|exact IH].
  destruct (normalized_fixed i U) as [U' N]. cbn [map filter].
  rewrite U'. cbn [map]. now rewrite N, IH.
Qed.

(** ** The add form *)

(** [addQuote_on_page] is [addQuote] on the world. *)
Lemma addQuote_on_page_world (h : host) (arg : value) (p : form_page) :
  fst (addQuote_on_page h arg p) = fst (addQuote h arg (fst p)) /\
  fst (snd (addQuote_on_page h arg p)) = snd (addQuote h arg (fst p)).
Proof.
  destruct p as [w f]. unfold addQuote_on_page, addQuote. cbn [fst snd].
  destruct arg; try (now split);
    (destruct (negb (truthy _) || _ || _); [now split|]);
    (destruct (method_trim _); [|now split]);
    (destruct (trim_or_empty (default_empty (get _ "author"))); [|now split]);
    (destruct (trim_or_empty (default_empty (get _ "category"))); [|now split]);
    (destruct (_ && negb _); now split).
Qed.



(** With an element whose category has no string in the collection, the
    click appends the quote, empties the inputs, and raises. *)
Example click_add_may_raise :
  fst (click_add (user true)
         (start unlabelled,
          Some {| newQuoteText := " Hello "; newQuoteAuthor := "X";
                  newQuoteCategory := "" |})) = Throw TypeError /\
  length (quotes (fst (snd (click_add (user true)
         (start unlabelled,
          Some {| newQuoteText := " Hello "; newQuoteAuthor := "X";
                  newQuoteCategory := "" |}))))) = 3 /\
  snd (snd (click_add (user true)
              (start unlabelled,
               Some {| newQuoteText := " Hello "; newQuoteAuthor := "X";
                       newQuoteCategory := "" |})))
  = Some {| newQuoteText := ""; newQuoteAuthor := ""; newQuoteCategory := "" |}.
Proof. repeat split. Qed.

(** A click on [Add Quote] right after the form was created only tells
    the user to provide a text; [Clear Form] empties the three inputs. *)
Example fresh_form_adds_nothing :
  click_add (user true) (createAddQuoteForm (one_quote, None))
  = (Normal,
     (alert "Please provide quote text." one_quote,
      Some {| newQuoteText := ""; newQuoteAuthor := ""; newQuoteCategory := "" |})) /\
  click_clear (one_quote,
               Some {| newQuoteText := "a"; newQuoteAuthor := "b";
                       newQuoteCategory := "c" |})
  = createAddQuoteForm (one_quote, None).
Proof. split; reflexivity. Qed.

(** ** The two scripts *)

(** The later script changes the collection, and the stored collection,
    as the earlier one does: for every event, answered alike, both leave
    the same collection in memory and the same collection in storage. *)
Theorem later_script_keeps_the_store (h : host) (e : event) (w : world) :
  same_answers h ->
  quotes (handle h e w) = quotes (Earlier.handle h e w) /\
  dq_quotes_v1 (localStorage (handle h e w))
  = dq_quotes_v1 (localStorage (Earlier.handle h e w)).
Proof.
  intros [Hi Hc]. unfold handle.
  destruct e as [arg|file| |v| |]; cbn [perform Earlier.handle snd].
  - unfold addQuote, Earlier.addQuote.
    destruct arg; try (now split);
      (destruct (negb (truthy _) || _ || _); [now split|]);
      (destruct (method_trim _); [|now split]);
      (destruct (trim_or_empty (default_empty (get _ "author"))); [|now split]);
      (destruct (trim_or_empty (default_empty (get _ "category"))); [|now split]);
      (destruct (_ && negb _); [now split|]);
      now rewrite quotes_populateCategories, stored_quotes_populateCategories.
  - unfold importFromJsonFile, Earlier.importFromJsonFile. rewrite Hi.
    destruct file as [result|]; [|now split].
    destruct (JSON_parse result) as [[| | | | |imported|]|]; try (now split).
    destruct (valid_of imported); [now split|].
    destruct (toAdd_of _ _); [destruct (negb _); now split| now split].
  - unfold clearAllQuotes, Earlier.clearAllQuotes. rewrite Hc.
    destruct (negb _); [now split|].
    now rewrite quotes_populateCategories, stored_quotes_populateCategories.
  - destruct (categoryFilter w) as [sel|]; [|now split].
    destruct (existsb _ _); [|now split].
    now rewrite quotes_filterQuotes, stored_quotes_filterQuotes.
  - now split.
  - now split.
Qed.

Lemma later_script_keeps_the_store_witness :
  same_answers (user true) /\
  quotes (handle (user true) (ImportFile (Some (Document (VArr twice_file)))) one_quote)
  = quotes (Earlier.handle (user true)
              (ImportFile (Some (Document (VArr twice_file)))) one_quote).
Proof.
  assert (H : same_answers (user true)) by (split; reflexivity).
  split; [exact H|].
  exact (proj1 (later_script_keeps_the_store (user true)
                  (ImportFile (Some (Document (VArr twice_file)))) one_quote H)).
Defined.
